(** * collectd: src/utils_curl_stats.c

    A shallow embedding of the cURL transfer-statistics helper of collectd:
    the table [field_specs], the selector [curl_stats_from_config] that turns
    a configuration block into a [curl_stats_t], and [curl_stats_dispatch],
    which walks the table and hands one value list per enabled field to
    [plugin_dispatch_values].

    Pointers that may be NULL are options. Logging through [ERROR] and the
    calls of [plugin_dispatch_values] are effects: the functions return the
    messages logged and thread the history of the sink. What the file takes
    from headers and other files of collectd ([IS_TRUE], [sstrncpy],
    [ssnprintf], [DATA_MAX_NAME_LEN], [VALUE_LIST_INIT],
    [plugin_dispatch_values]) is a parameter of the definitions that use it.
    [calloc] is taken to succeed, characters are compared in the C locale,
    and [double] is IEEE 754 binary64 with the default rounding. *)

From Stdlib Require Import ZArith NArith List String Ascii Bool Lia Permutation.
From Stdlib Require Import SpecFloat QArith Qpower.
Import ListNotations.
Close Scope Q_scope.

(** ** C strings

    A C string is modelled by the [string] of its characters before the
    terminating NUL. *)

(** [tolower] of <ctype.h> in the C locale. *)
Definition tolower (c : ascii) : ascii :=
  let n := N_of_ascii c in
  if ((65 <=? n) && (n <=? 90))%N then ascii_of_N (n + 32) else c.

(** A character as an [unsigned char]. *)
Definition uchar (c : ascii) : Z := Z.of_N (N_of_ascii c).

(** [strcasecmp] of <strings.h>: the difference of the first pair of
    lower-cased characters that differ, 0 when there is none. *)
Fixpoint strcasecmp (s1 s2 : string) : Z :=
  match s1, s2 with
  | EmptyString, EmptyString => 0
  | EmptyString, String c2 _ => 0 - uchar (tolower c2)
  | String c1 _, EmptyString => uchar (tolower c1)
  | String c1 r1, String c2 r2 =>
      let d := (uchar (tolower c1) - uchar (tolower c2))%Z in
      if (d =? 0)%Z then strcasecmp r1 r2 else d
  end.

(** The first [n] characters of a string. *)
Fixpoint str_take (n : nat) (s : string) : string :=
  match n, s with
  | S n', String c r => String c (str_take n' r)
  | _, _ => EmptyString
  end.

(** ** Floating point

    [double] (and collectd's [gauge_t]) is IEEE 754 binary64, with the
    operations of the Standard Library's executable specification. *)
Definition prec : Z := 53.
Definition emax : Z := 1024.
Definition double : Type := spec_float.
Definition gauge_t : Type := double.

(** Zeros and finite numbers, as opposed to infinities and NaN. *)
Definition is_finite (f : double) : bool :=
  match f with
  | S754_zero _ | S754_finite _ _ _ => true
  | S754_infinity _ | S754_nan => false
  end.

(** The rational number a zero or a finite [double] stands for. *)
Definition SF2Q (f : double) : Q :=
  match f with
  | S754_finite s m e => (inject_Z (cond_Zopp s (Zpos m)) * 2 ^ e)%Q
  | _ => 0%Q
  end.

(** The range of [long] where it has 64 bits. *)
Definition LONG_MIN : Z := - 2 ^ 63.
Definition LONG_MAX : Z := 2 ^ 63 - 1.

(** The integers a [double] holds exactly: a significand of at most 53
    bits times a power of two. *)
Definition representable (n : Z) : Prop :=
  exists m k : Z, (0 <= k)%Z /\ (Z.abs m < 2 ^ 53)%Z /\ n = (m * 2 ^ k)%Z.

(** ** struct curl_stats_s *)

Record curl_stats_s : Type := Build_curl_stats_s {
  total_time : bool;
  namelookup_time : bool;
  connect_time : bool;
  pretransfer_time : bool;
  size_upload : bool;
  size_download : bool;
  speed_download : bool;
  speed_upload : bool;
  header_size : bool;
  request_size : bool;
  content_length_download : bool;
  content_length_upload : bool;
  starttransfer_time : bool;
  redirect_time : bool;
  redirect_count : bool;
  num_connects : bool;
  appconnect_time : bool
}.

Definition curl_stats_t : Type := curl_stats_s.

(** The members in declaration order. Each is a [bool] of one byte, so the
    position of a member in this list is its [offsetof]. *)
Definition curl_stats_members : list string :=
  ["total_time"; "namelookup_time"; "connect_time"; "pretransfer_time";
   "size_upload"; "size_download"; "speed_download"; "speed_upload";
   "header_size"; "request_size"; "content_length_download";
   "content_length_upload"; "starttransfer_time"; "redirect_time";
   "redirect_count"; "num_connects"; "appconnect_time"]%string.

(** The position of [member] in [members], their number when it is not
    among them. *)
Fixpoint member_index (member : string) (members : list string) : nat :=
  match members with
  | [] => 0
  | m :: rest => if String.eqb member m then 0 else S (member_index member rest)
  end.

Definition offsetof (member : string) : nat :=
  member_index member curl_stats_members.

(** The bytes of the struct, and the struct read back from its bytes. *)
Definition bytes_of (s : curl_stats_t) : list bool :=
  [total_time s; namelookup_time s; connect_time s; pretransfer_time s;
   size_upload s; size_download s; speed_download s; speed_upload s;
   header_size s; request_size s; content_length_download s;
   content_length_upload s; starttransfer_time s; redirect_time s;
   redirect_count s; num_connects s; appconnect_time s].

(** [calloc (sizeof ( *s), 1)]: every byte is zero. *)
Definition calloc_curl_stats : curl_stats_t :=
  Build_curl_stats_s false false false false false false false false false
                     false false false false false false false false.

Definition of_bytes (l : list bool) : curl_stats_t :=
  match l with
  | [b0; b1; b2; b3; b4; b5; b6; b7; b8; b9; b10; b11; b12; b13; b14; b15; b16] =>
      Build_curl_stats_s b0 b1 b2 b3 b4 b5 b6 b7 b8 b9 b10 b11 b12 b13 b14 b15 b16
  | _ => calloc_curl_stats
  end.

(** The bytes [l] with [b] stored at [offset]; an offset past the end
    stores nothing. *)
Fixpoint store_byte (l : list bool) (offset : nat) (b : bool) : list bool :=
  match l, offset with
  | [], _ => []
  | _ :: rest, O => b :: rest
  | x :: rest, S o => x :: store_byte rest o b
  end.

(** [*(bool * )((char * )s + offset) = true] *)
Definition enable_field (s : curl_stats_t) (offset : nat) : curl_stats_t :=
  of_bytes (store_byte (bytes_of s) offset true).

(** [return *(bool * )((char * )s + offset)] *)
Definition field_enabled (s : curl_stats_t) (offset : nat) : bool :=
  nth offset (bytes_of s) false.

(** ** The table field_specs *)

Inductive CURLINFO : Type :=
| CURLINFO_TOTAL_TIME
| CURLINFO_NAMELOOKUP_TIME
| CURLINFO_CONNECT_TIME
| CURLINFO_PRETRANSFER_TIME
| CURLINFO_SIZE_UPLOAD
| CURLINFO_SIZE_DOWNLOAD
| CURLINFO_SPEED_DOWNLOAD
| CURLINFO_SPEED_UPLOAD
| CURLINFO_HEADER_SIZE
| CURLINFO_REQUEST_SIZE
| CURLINFO_CONTENT_LENGTH_DOWNLOAD
| CURLINFO_CONTENT_LENGTH_UPLOAD
| CURLINFO_STARTTRANSFER_TIME
| CURLINFO_REDIRECT_TIME
| CURLINFO_REDIRECT_COUNT
| CURLINFO_NUM_CONNECTS
| CURLINFO_APPCONNECT_TIME.

(** The three functions a [dispatcher] member can point to. *)
Inductive dispatcher_fn : Type :=
| fn_dispatch_gauge
| fn_dispatch_speed
| fn_dispatch_size.

Record field_spec : Type := Build_field_spec {
  name : string;
  offset : nat;
  dispatcher : dispatcher_fn;
  type : string;
  info : CURLINFO
}.

Definition SPEC (name : string) (dispatcher : dispatcher_fn) (type : string)
  (info : CURLINFO) : field_spec :=
  Build_field_spec name (offsetof name) dispatcher type info.

Definition field_specs : list field_spec :=
  [ SPEC "total_time"              fn_dispatch_gauge "duration" CURLINFO_TOTAL_TIME;
    SPEC "namelookup_time"         fn_dispatch_gauge "duration" CURLINFO_NAMELOOKUP_TIME;
    SPEC "connect_time"            fn_dispatch_gauge "duration" CURLINFO_CONNECT_TIME;
    SPEC "pretransfer_time"        fn_dispatch_gauge "duration" CURLINFO_PRETRANSFER_TIME;
    SPEC "size_upload"             fn_dispatch_gauge "bytes"    CURLINFO_SIZE_UPLOAD;
    SPEC "size_download"           fn_dispatch_gauge "bytes"    CURLINFO_SIZE_DOWNLOAD;
    SPEC "speed_download"          fn_dispatch_speed "bitrate"  CURLINFO_SPEED_DOWNLOAD;
    SPEC "speed_upload"            fn_dispatch_speed "bitrate"  CURLINFO_SPEED_UPLOAD;
    SPEC "header_size"             fn_dispatch_size  "bytes"    CURLINFO_HEADER_SIZE;
    SPEC "request_size"            fn_dispatch_size  "bytes"    CURLINFO_REQUEST_SIZE;
    SPEC "content_length_download" fn_dispatch_gauge "bytes"    CURLINFO_CONTENT_LENGTH_DOWNLOAD;
    SPEC "content_length_upload"   fn_dispatch_gauge "bytes"    CURLINFO_CONTENT_LENGTH_UPLOAD;
    SPEC "starttransfer_time"      fn_dispatch_gauge "duration" CURLINFO_STARTTRANSFER_TIME;
    SPEC "redirect_time"           fn_dispatch_gauge "duration" CURLINFO_REDIRECT_TIME;
    SPEC "redirect_count"          fn_dispatch_size  "count"    CURLINFO_REDIRECT_COUNT;
    SPEC "num_connects"            fn_dispatch_size  "count"    CURLINFO_NUM_CONNECTS;
    SPEC "appconnect_time"         fn_dispatch_gauge "duration" CURLINFO_APPCONNECT_TIME
  ]%string.

(** [STATIC_ARRAY_SIZE] of collectd.h: the number of elements of an array. *)
Definition STATIC_ARRAY_SIZE {A : Type} (a : list A) : nat := List.length a.

(** ** The configuration tree (liboconfig) *)

(** Modelled from the spec: [oconfig_value_t] and [oconfig_item_t] of
    oconfig.h, which is not part of this file: "a sequence of nodes, each
    with a string key and one or more typed values (string, boolean,
    numeric)". The members are the ones this file reads; [values_num] and
    [children_num] are the lengths of the two arrays. *)
Inductive oconfig_value_t : Type :=
| OCONFIG_TYPE_STRING (string : string)
| OCONFIG_TYPE_NUMBER (number : double)
| OCONFIG_TYPE_BOOLEAN (boolean : bool).

#[warnings="-register-all"]
Inductive oconfig_item_t : Type := Build_oconfig_item_t {
  key : string;
  values : list oconfig_value_t;
  children : list oconfig_item_t
}.

Definition values_num (c : oconfig_item_t) : nat := List.length (values c).

(** [c->values[0]]. Where there is no value, a number stands for what the
    code does not read. *)
Definition values_0 (c : oconfig_item_t) : oconfig_value_t :=
  hd (OCONFIG_TYPE_NUMBER (S754_zero false)) (values c).

(** The two messages [curl_stats_from_config] hands to [ERROR]:
    "curl stats: Unknown field name %s" and
    "curl stats: `%s' expects a single boolean argument", each with the key
    of the offending entry. *)
Inductive config_error : Type :=
| UnknownField (key : string)
| InvalidValue (key : string).

(** The inner loop of [curl_stats_from_config]: the index of the first entry
    of the table whose name equals [key] up to case, counted from [field];
    the index one past the table when there is none. *)
Fixpoint find_field (key : string) (specs : list field_spec) (field : nat) : nat :=
  match specs with
  | [] => field
  | spec :: rest =>
      if (strcasecmp key (name spec) =? 0)%Z then field
      else find_field key rest (S field)
  end.

(** The entry read where an index is past the table, which the code never
    does. *)
Definition null_spec : field_spec :=
  Build_field_spec EmptyString 0 fn_dispatch_gauge EmptyString CURLINFO_TOTAL_TIME.

Section Selector.

(** [IS_TRUE] of collectd's common.h, the strings the configuration format
    reads as true. *)
Variable IS_TRUE : string -> bool.

(** [((type == OCONFIG_TYPE_STRING) && IS_TRUE (value.string))
    || ((type == OCONFIG_TYPE_BOOLEAN) && value.boolean)] *)
Definition is_true_value (v : oconfig_value_t) : bool :=
  match v with
  | OCONFIG_TYPE_STRING str => IS_TRUE str
  | OCONFIG_TYPE_BOOLEAN b => b
  | OCONFIG_TYPE_NUMBER _ => false
  end.

(** The negation of
    [(type != OCONFIG_TYPE_STRING) && (type != OCONFIG_TYPE_BOOLEAN)]. *)
Definition is_string_or_boolean (v : oconfig_value_t) : bool :=
  match v with
  | OCONFIG_TYPE_STRING _ | OCONFIG_TYPE_BOOLEAN _ => true
  | OCONFIG_TYPE_NUMBER _ => false
  end.

(** The body of the loop over [ci->children]: the error logged before
    [free (s); return NULL], or the struct after the entry. *)
Definition from_config_child (c : oconfig_item_t) (s : curl_stats_t)
  : config_error + curl_stats_t :=
  let field := find_field (key c) field_specs 0 in
  if STATIC_ARRAY_SIZE field_specs <=? field then inl (UnknownField (key c))
  else if negb (values_num c =? 1) || negb (is_string_or_boolean (values_0 c))
  then inl (InvalidValue (key c))
  else if is_true_value (values_0 c)
  then inr (enable_field s (offset (nth field field_specs null_spec)))
  else inr s.

(** The loop over [ci->children], from the entries [cs] on. *)
Fixpoint from_config_children (cs : list oconfig_item_t) (s : curl_stats_t)
  : config_error + curl_stats_t :=
  match cs with
  | [] => inr s
  | c :: rest =>
      match from_config_child c s with
      | inl e => inl e
      | inr s' => from_config_children rest s'
      end
  end.

(** [curl_stats_from_config]: the pointer returned ([None] is NULL) and the
    messages logged. Allocation is taken to succeed. *)
Definition curl_stats_from_config (ci : option oconfig_item_t)
  : option curl_stats_t * list config_error :=
  match ci with
  | None => (None, [])
  | Some ci =>
      match from_config_children (children ci) calloc_curl_stats with
      | inl e => (None, [e])
      | inr s => (Some s, [])
      end
  end.

End Selector.

(** ** The transfer handle (libcurl) *)

Definition CURLcode : Type := Z.
Definition CURLE_OK : CURLcode := 0%Z.

(** Modelled from the spec: the [CURL] handle of libcurl after a transfer,
    "an opaque handle supporting get floating-point value by key and get
    native-integer value by key, either of which may fail". It holds what
    [curl_easy_getinfo] answers for each [CURLINFO], once for the ones read
    into a [double] and once for the ones read into a [long]: the code
    returned and the value stored through the third argument, which the
    callers read only when the code is [CURLE_OK]. *)
Record CURL : Type := Build_CURL {
  curl_easy_getinfo_double : CURLINFO -> CURLcode * double;
  curl_easy_getinfo_long : CURLINFO -> CURLcode * Z
}.

(** [(double)raw]: conversion of an integer to binary64, rounding to nearest
    with ties to even. *)
Definition double_of_long (raw : Z) : double :=
  binary_normalize prec emax raw 0 false.

(** [v.gauge *= 8]: the product in binary64 with the constant 8.0. *)
Definition double_times_8 (g : double) : double :=
  SFmul prec emax g (double_of_long 8).

(** ** Value lists and the sink (collectd's plugin.h) *)

(** Modelled from the spec: [value_list_t] of plugin.h, which is not part of
    this file, the sample "(host, plugin name, plugin instance, type,
    type-instance, numeric value)" with its time and interval. [vl_values]
    stands for the members [values] and [values_len]; the values this file
    stores are gauges. *)
Record value_list_t : Type := Build_value_list_t {
  vl_values : list gauge_t;
  vl_time : Z;
  vl_interval : Z;
  vl_host : string;
  vl_plugin : string;
  vl_plugin_instance : string;
  vl_type : string;
  vl_type_instance : string
}.

Definition set_values (vl : value_list_t) (v : list gauge_t) : value_list_t :=
  Build_value_list_t v (vl_time vl) (vl_interval vl) (vl_host vl) (vl_plugin vl)
    (vl_plugin_instance vl) (vl_type vl) (vl_type_instance vl).

Definition set_host (vl : value_list_t) (h : string) : value_list_t :=
  Build_value_list_t (vl_values vl) (vl_time vl) (vl_interval vl) h (vl_plugin vl)
    (vl_plugin_instance vl) (vl_type vl) (vl_type_instance vl).

Definition set_plugin (vl : value_list_t) (p : string) : value_list_t :=
  Build_value_list_t (vl_values vl) (vl_time vl) (vl_interval vl) (vl_host vl) p
    (vl_plugin_instance vl) (vl_type vl) (vl_type_instance vl).

Definition set_plugin_instance (vl : value_list_t) (p : string) : value_list_t :=
  Build_value_list_t (vl_values vl) (vl_time vl) (vl_interval vl) (vl_host vl)
    (vl_plugin vl) p (vl_type vl) (vl_type_instance vl).

Definition set_type (vl : value_list_t) (t : string) : value_list_t :=
  Build_value_list_t (vl_values vl) (vl_time vl) (vl_interval vl) (vl_host vl)
    (vl_plugin vl) (vl_plugin_instance vl) t (vl_type_instance vl).

Definition set_type_instance (vl : value_list_t) (t : string) : value_list_t :=
  Build_value_list_t (vl_values vl) (vl_time vl) (vl_interval vl) (vl_host vl)
    (vl_plugin vl) (vl_plugin_instance vl) (vl_type vl) t.

(** The history of the sink: every value list handed to
    [plugin_dispatch_values], oldest first, with the status it returned. *)
Definition sink_log : Type := list (value_list_t * Z).

(** The value lists the sink took: this file reads a negative status as
    failure and anything else as success. *)
Definition emitted (log : sink_log) : list value_list_t :=
  map fst (filter (fun e => (0 <=? snd e)%Z) log).

Section Dispatcher.

(** [DATA_MAX_NAME_LEN] of plugin.h, the size of each name buffer of a
    value list. *)
Variable DATA_MAX_NAME_LEN : nat.

(** [VALUE_LIST_INIT] of plugin.h. *)
Variable VALUE_LIST_INIT : value_list_t.

(** [sstrncpy (dest, src, n)] of common.c: what [dest] holds after the
    call. *)
Variable sstrncpy : string -> nat -> string.

(** [ssnprintf (dest, n, "%s%s", a, b)] of common.c: what [dest] holds after
    the call. *)
Variable ssnprintf : nat -> string -> string -> string.

(** The sink: the status [plugin_dispatch_values] returns for a value
    list, given everything it was handed before. *)
Variable sink : sink_log -> value_list_t -> Z.

(** Modelled from the spec: [plugin_dispatch_values] of plugin.c, which is
    not part of this file: the sink "accepts one emission call per sample"
    and "returns success or failure". The call enters the history with the
    status the sink returns for it. *)
Definition plugin_dispatch_values (vl : value_list_t) (log : sink_log)
  : Z * sink_log :=
  let status := sink log vl in
  (status, log ++ [(vl, status)]).

(** The three dispatchers. [vl] is passed by pointer: the value list after
    the call is part of the result. *)
Definition dispatch_gauge (curl : CURL) (info : CURLINFO) (vl : value_list_t)
  (log : sink_log) : Z * value_list_t * sink_log :=
  let '(code, gauge) := curl_easy_getinfo_double curl info in
  if negb (code =? CURLE_OK)%Z then ((-1)%Z, vl, log)
  else
    let vl := set_values vl [gauge] in
    let '(status, log) := plugin_dispatch_values vl log in
    (status, vl, log).

Definition dispatch_speed (curl : CURL) (info : CURLINFO) (vl : value_list_t)
  (log : sink_log) : Z * value_list_t * sink_log :=
  let '(code, gauge) := curl_easy_getinfo_double curl info in
  if negb (code =? CURLE_OK)%Z then ((-1)%Z, vl, log)
  else
    let gauge := double_times_8 gauge in
    let vl := set_values vl [gauge] in
    let '(status, log) := plugin_dispatch_values vl log in
    (status, vl, log).

Definition dispatch_size (curl : CURL) (info : CURLINFO) (vl : value_list_t)
  (log : sink_log) : Z * value_list_t * sink_log :=
  let '(code, raw) := curl_easy_getinfo_long curl info in
  if negb (code =? CURLE_OK)%Z then ((-1)%Z, vl, log)
  else
    let gauge := double_of_long raw in
    let vl := set_values vl [gauge] in
    let '(status, log) := plugin_dispatch_values vl log in
    (status, vl, log).

(** A call through the [dispatcher] member of a table entry. *)
Definition call_dispatcher (f : dispatcher_fn)
  : CURL -> CURLINFO -> value_list_t -> sink_log -> Z * value_list_t * sink_log :=
  match f with
  | fn_dispatch_gauge => dispatch_gauge
  | fn_dispatch_speed => dispatch_speed
  | fn_dispatch_size => dispatch_size
  end.

(** [instance_prefix ? instance_prefix : ""] *)
Definition string_or_empty (s : option string) : string :=
  match s with
  | Some s => s
  | None => EmptyString
  end.

(** One iteration of the loop of [curl_stats_dispatch] on the table entry
    [spec]: status 0 with nothing done stands for [continue]. *)
Definition dispatch_field (s : curl_stats_t) (curl : CURL)
  (instance_prefix : option string) (spec : field_spec) (vl : value_list_t)
  (log : sink_log) : Z * value_list_t * sink_log :=
  if negb (field_enabled s (offset spec)) then (0%Z, vl, log)
  else
    let vl := set_type vl (sstrncpy (type spec) DATA_MAX_NAME_LEN) in
    let vl := set_type_instance vl
                (ssnprintf DATA_MAX_NAME_LEN
                   (string_or_empty instance_prefix) (name spec)) in
    let vl := set_values vl [] in
    call_dispatcher (dispatcher spec) curl (info spec) vl log.

(** The loop over the table, from the entries [specs] on: the status
    returned, the local value list and the history of the sink when the
    loop is left. *)
Fixpoint dispatch_fields (s : curl_stats_t) (curl : CURL)
  (instance_prefix : option string) (specs : list field_spec)
  (vl : value_list_t) (log : sink_log) : Z * value_list_t * sink_log :=
  match specs with
  | [] => (0%Z, vl, log)
  | spec :: rest =>
      let '(status, vl, log) := dispatch_field s curl instance_prefix spec vl log in
      if (status <? 0)%Z then (status, vl, log)
      else dispatch_fields s curl instance_prefix rest vl log
  end.

(** [if (src != NULL) sstrncpy (dest, src, sizeof (dest))]: what [dest]
    holds afterwards. *)
Definition copy_name (dest : string) (src : option string) : string :=
  match src with
  | Some src => sstrncpy src DATA_MAX_NAME_LEN
  | None => dest
  end.

(** The value list as it is when the loop starts. *)
Definition init_value_list (hostname plugin plugin_instance : option string)
  : value_list_t :=
  let vl := VALUE_LIST_INIT in
  let vl := set_host vl (copy_name (vl_host vl) hostname) in
  let vl := set_plugin vl (copy_name (vl_plugin vl) plugin) in
  set_plugin_instance vl (copy_name (vl_plugin_instance vl) plugin_instance).

(** [curl_stats_dispatch]: the status returned and the history of the sink
    after the call. [None] is a NULL pointer. *)
Definition curl_stats_dispatch (s : option curl_stats_t) (curl : option CURL)
  (hostname plugin plugin_instance instance_prefix : option string)
  (log : sink_log) : Z * sink_log :=
  match s with
  | None => (0%Z, log)
  | Some s =>
      match curl with
      | None => ((-1)%Z, log)
      | Some curl =>
          let '(status, _, log) :=
            dispatch_fields s curl instance_prefix field_specs
              (init_value_list hostname plugin plugin_instance) log in
          (status, log)
      end
  end.

End Dispatcher.

(** ** Vocabulary of the statements *)

(** An entry whose key names a field of the table. *)
Definition known_key (c : oconfig_item_t) : bool :=
  find_field (key c) field_specs 0 <? STATIC_ARRAY_SIZE field_specs.

(** An entry with exactly one value, a string or a boolean. *)
Definition single_boolean (c : oconfig_item_t) : bool :=
  (values_num c =? 1) && is_string_or_boolean (values_0 c).

(** An entry that [curl_stats_from_config] accepts. *)
Definition valid_child (c : oconfig_item_t) : bool :=
  known_key c && single_boolean c.

(** An entry whose single value is true or a string read as true. *)
Definition true_child (IS_TRUE : string -> bool) (c : oconfig_item_t) : bool :=
  (values_num c =? 1) && is_true_value IS_TRUE (values_0 c).

(** The key of the entry equals the name of the field up to case. *)
Definition key_matches (c : oconfig_item_t) (spec : field_spec) : bool :=
  (strcasecmp (key c) (name spec) =? 0)%Z.

(** Some entry for the field carries a true value. *)
Definition some_value_true (IS_TRUE : string -> bool) (cs : list oconfig_item_t)
  (spec : field_spec) : bool :=
  existsb (fun c => key_matches c spec && true_child IS_TRUE c) cs.

(** The reading "the last value wins": the value of the last entry for the
    field, false when there is none. *)
Definition last_value_true (IS_TRUE : string -> bool) (cs : list oconfig_item_t)
  (spec : field_spec) : bool :=
  match filter (fun c => key_matches c spec) (rev cs) with
  | c :: _ => true_child IS_TRUE c
  | [] => false
  end.

Definition is_unknown_field (e : config_error) : bool :=
  match e with
  | UnknownField _ => true
  | InvalidValue _ => false
  end.

(** Lower-casing a whole string, and strings without a NUL character. *)
Fixpoint str_lower (s : string) : string :=
  match s with
  | EmptyString => EmptyString
  | String c r => String (tolower c) (str_lower r)
  end.

Fixpoint nul_free (s : string) : bool :=
  match s with
  | EmptyString => true
  | String c r => negb (Ascii.eqb c zero) && nul_free r
  end.

(** The code [curl_easy_getinfo] answers for the entry, through the
    dispatcher of the entry. *)
Definition getinfo_code (curl : CURL) (spec : field_spec) : CURLcode :=
  match dispatcher spec with
  | fn_dispatch_gauge | fn_dispatch_speed =>
      fst (curl_easy_getinfo_double curl (info spec))
  | fn_dispatch_size => fst (curl_easy_getinfo_long curl (info spec))
  end.

(** The raw value of the entry after the conversion of its dispatcher: a
    gauge as it is, a speed times 8, a size or count converted to
    [double]. *)
Definition converted_value (curl : CURL) (spec : field_spec) : gauge_t :=
  match dispatcher spec with
  | fn_dispatch_gauge => snd (curl_easy_getinfo_double curl (info spec))
  | fn_dispatch_speed => double_times_8 (snd (curl_easy_getinfo_double curl (info spec)))
  | fn_dispatch_size => double_of_long (snd (curl_easy_getinfo_long curl (info spec)))
  end.

(** The value list [vl] with the given type and type instance, as the loop
    prepares it for an entry, and with the value of the entry. *)
Definition prepared (vl : value_list_t) (type type_instance : string)
  : value_list_t :=
  set_values (set_type_instance (set_type vl type) type_instance) [].

Definition sample (vl : value_list_t) (type type_instance : string) (g : gauge_t)
  : value_list_t :=
  set_values (prepared vl type type_instance) [g].

(** The part of a value list the loop never writes. *)
Definition meta_of (vl : value_list_t) : Z * Z * string * string * string :=
  (vl_time vl, vl_interval vl, vl_host vl, vl_plugin vl, vl_plugin_instance vl).

(** The enabled entries of the table, in the order of the table. *)
Definition enabled_specs (s : curl_stats_t) : list field_spec :=
  filter (fun spec => field_enabled s (offset spec)) field_specs.

(** The entries of [evs] whose type instance is [ti]. *)
Definition with_type_instance (ti : string) (evs : sink_log) : sink_log :=
  filter (fun e => String.eqb (vl_type_instance (fst e)) ti) evs.

(** ** Sample inputs *)

(** [IS_TRUE] as collectd's common.h has it. *)
Definition IS_TRUE_common (s : string) : bool :=
  (strcasecmp "true" s =? 0)%Z || (strcasecmp "yes" s =? 0)%Z
  || (strcasecmp "on" s =? 0)%Z.

(** [IS_FALSE] as collectd's common.h has it. *)
Definition IS_FALSE_common (s : string) : bool :=
  (strcasecmp "false" s =? 0)%Z || (strcasecmp "no" s =? 0)%Z
  || (strcasecmp "off" s =? 0)%Z.

(** An entry with one value, and a block of entries. *)
Definition entry (k : string) (v : oconfig_value_t) : oconfig_item_t :=
  Build_oconfig_item_t k [v] [].

Definition block (cs : list oconfig_item_t) : oconfig_item_t :=
  Build_oconfig_item_t "Statistics" [] cs.

Definition VALUE_LIST_INIT_sample : value_list_t :=
  Build_value_list_t [] 0 10 "localhost" "" "" "" "".

(** [sstrncpy] and [ssnprintf] as bounded copies: [dest] receives the first
    [n - 1] characters, as [strncpy] and [vsnprintf] followed by
    [dest[n - 1] = 0] leave them. *)
Definition sstrncpy_common (src : string) (n : nat) : string :=
  str_take (n - 1) src.

Definition ssnprintf_common (n : nat) (a b : string) : string :=
  str_take (n - 1) (String.append a b).

(** [curl_stats_dispatch] and its parts with name buffers of 64 bytes and
    these copies. *)
Definition init_value_list_sample (hostname plugin plugin_instance : option string)
  : value_list_t :=
  init_value_list 64 VALUE_LIST_INIT_sample sstrncpy_common
    hostname plugin plugin_instance.

Definition dispatch_field_sample (sink : sink_log -> value_list_t -> Z)
  (s : curl_stats_t) (curl : CURL) (instance_prefix : option string)
  (spec : field_spec) (vl : value_list_t) (log : sink_log)
  : Z * value_list_t * sink_log :=
  dispatch_field 64 sstrncpy_common ssnprintf_common sink s curl
    instance_prefix spec vl log.

Definition dispatch_fields_sample (sink : sink_log -> value_list_t -> Z)
  (s : curl_stats_t) (curl : CURL) (instance_prefix : option string)
  (specs : list field_spec) (vl : value_list_t) (log : sink_log)
  : Z * value_list_t * sink_log :=
  dispatch_fields 64 sstrncpy_common ssnprintf_common sink s curl
    instance_prefix specs vl log.

Definition curl_stats_dispatch_sample (sink : sink_log -> value_list_t -> Z)
  (s : option curl_stats_t) (curl : option CURL)
  (hostname plugin plugin_instance instance_prefix : option string)
  (log : sink_log) : Z * sink_log :=
  curl_stats_dispatch 64 VALUE_LIST_INIT_sample sstrncpy_common ssnprintf_common
    sink s curl hostname plugin plugin_instance instance_prefix log.

(** A sink that takes everything. *)
Definition sink_ok (log : sink_log) (vl : value_list_t) : Z := 0.

(** A sink that refuses the value lists of type "bytes". *)
Definition sink_no_bytes (log : sink_log) (vl : value_list_t) : Z :=
  if String.eqb (vl_type vl) "bytes" then (-1)%Z else 0%Z.

(** 1.5, that is 6755399441055744 * 2^-52. *)
Definition double_one_point_five : double :=
  S754_finite false 6755399441055744 (-52).

(** A transfer on which every value can be read. *)
Definition curl_sample : CURL :=
  Build_CURL
    (fun info => (CURLE_OK, double_one_point_five))
    (fun info => (CURLE_OK, 3%Z)).

(** A transfer on which the total time cannot be read. *)
Definition curl_no_total_time : CURL :=
  Build_CURL
    (fun info =>
       match info with
       | CURLINFO_TOTAL_TIME => (48%Z, S754_zero false)
       | _ => (CURLE_OK, double_one_point_five)
       end)
    (fun info => (CURLE_OK, 3%Z)).

(** The struct in which the given members are set. *)
Definition stats_of (members : list string) : curl_stats_t :=
  fold_left (fun s m => enable_field s (offsetof m)) members calloc_curl_stats.

Definition spec_total_time : field_spec :=
  SPEC "total_time" fn_dispatch_gauge "duration" CURLINFO_TOTAL_TIME.
Definition spec_size_upload : field_spec :=
  SPEC "size_upload" fn_dispatch_gauge "bytes" CURLINFO_SIZE_UPLOAD.
Definition spec_speed_upload : field_spec :=
  SPEC "speed_upload" fn_dispatch_speed "bitrate" CURLINFO_SPEED_UPLOAD.
Definition spec_num_connects : field_spec :=
  SPEC "num_connects" fn_dispatch_size "count" CURLINFO_NUM_CONNECTS.

(** A valid block: keys in any case, booleans and strings. *)
Definition config_sample : oconfig_item_t :=
  block [entry "Total_Time" (OCONFIG_TYPE_BOOLEAN true);
         entry "size_download" (OCONFIG_TYPE_STRING "yes");
         entry "num_connects" (OCONFIG_TYPE_BOOLEAN false)].

(** The same key twice, true then false. *)
Definition config_duplicate : oconfig_item_t :=
  block [entry "total_time" (OCONFIG_TYPE_BOOLEAN true);
         entry "total_time" (OCONFIG_TYPE_BOOLEAN false)].

(** A string that is neither true nor false. *)
Definition config_banana : oconfig_item_t :=
  block [entry "total_time" (OCONFIG_TYPE_STRING "banana")].

(** A number where a boolean is expected. *)
Definition config_number : oconfig_item_t :=
  block [entry "total_time" (OCONFIG_TYPE_NUMBER (double_of_long 1))].

(** An unknown key after a valid entry. *)
Definition config_unknown : oconfig_item_t :=
  block [entry "total_time" (OCONFIG_TYPE_BOOLEAN true);
         entry "bogus" (OCONFIG_TYPE_BOOLEAN true)].

(** An unknown key after an entry without a value. *)
Definition config_invalid_then_unknown : oconfig_item_t :=
  block [Build_oconfig_item_t "total_time" [] [];
         entry "bogus" (OCONFIG_TYPE_BOOLEAN true)].

(** A prefix of 60 characters. *)
Definition long_prefix : string :=
  "aaaaaaaaaabbbbbbbbbbccccccccccddddddddddeeeeeeeeeeffffffffff".

Definition stats_time_speed_connects : curl_stats_t :=
  stats_of ["total_time"; "speed_upload"; "num_connects"]%string.

Definition stats_time_size_connects : curl_stats_t :=
  stats_of ["total_time"; "size_upload"; "num_connects"]%string.

(** The loop over the first enabled field of [stats_time_size_connects],
    with the sink that refuses "bytes". *)
Definition run_before_size_upload : Z * value_list_t * sink_log :=
  dispatch_fields_sample sink_no_bytes stats_time_size_connects curl_sample
    (Some "pfx-"%string) (firstn 1 (enabled_specs stats_time_size_connects))
    (init_value_list_sample (Some "host1"%string) None (Some "inst"%string))
    [].

(** ** More vocabulary *)

(** A block that asks for the fields enabled in [s] and no others: one
    entry per enabled field, with the name of the table as key and the
    boolean true as value. *)
Definition config_of (s : curl_stats_t) : oconfig_item_t :=
  block (map (fun spec => entry (name spec) (OCONFIG_TYPE_BOOLEAN true))
             (enabled_specs s)).

(** Two entries that differ at most in the case of the letters of their
    keys and in their own children. *)
Definition same_entry (c c' : oconfig_item_t) : Prop :=
  str_lower (key c) = str_lower (key c') /\ values c = values c'.

(** What a table entry asks of the handle: the answer for a [double] where
    its dispatcher reads one, the answer for a [long] where it reads
    that. *)
Definition same_answer (curl curl' : CURL) (spec : field_spec) : Prop :=
  match dispatcher spec with
  | fn_dispatch_gauge | fn_dispatch_speed =>
      curl_easy_getinfo_double curl (info spec)
      = curl_easy_getinfo_double curl' (info spec)
  | fn_dispatch_size =>
      curl_easy_getinfo_long curl (info spec)
      = curl_easy_getinfo_long curl' (info spec)
  end.


(** ** More sample inputs *)

(** The entries of [config_sample] with their keys in another case, one of
    them with an entry below it, in a block with a key and a value of its
    own. *)
Definition config_shouting : oconfig_item_t :=
  Build_oconfig_item_t "Other" [OCONFIG_TYPE_STRING "ignored"]
    [Build_oconfig_item_t "TOTAL_TIME" [OCONFIG_TYPE_BOOLEAN true]
       [entry "nested" (OCONFIG_TYPE_BOOLEAN true)];
     entry "Size_Download" (OCONFIG_TYPE_STRING "yes");
     entry "NUM_CONNECTS" (OCONFIG_TYPE_BOOLEAN false)].

(** A valid block that enables nothing. *)
Definition config_all_false : oconfig_item_t :=
  block [entry "total_time" (OCONFIG_TYPE_BOOLEAN false);
         entry "speed_upload" (OCONFIG_TYPE_STRING "no")].

(** A block that enables one more field. *)
Definition config_speed_upload : oconfig_item_t :=
  block [entry "speed_upload" (OCONFIG_TYPE_BOOLEAN true)].

(** A transfer on which only the total time can be read. *)
Definition curl_only_total_time : CURL :=
  Build_CURL
    (fun info =>
       match info with
       | CURLINFO_TOTAL_TIME => (CURLE_OK, double_one_point_five)
       | _ => (48%Z, S754_zero false)
       end)
    (fun info => (48%Z, 0%Z)).

(** (2^53 - 1) * 2^969, a speed whose product with 8 is no binary64
    number. *)
Definition double_huge : double := S754_finite false 9007199254740991 969.

(** * Properties *)

(** ** Characters and case-insensitive comparison *)

Lemma uchar_inj (a b : ascii) : uchar a = uchar b -> a = b.
Proof.
  unfold uchar. intros H. apply N2Z.inj in H.
  rewrite <- (ascii_N_embedding a), <- (ascii_N_embedding b). now rewrite H.
Qed.

Lemma tolower_nul (c : ascii) : uchar (tolower c) = 0%Z -> c = zero.
Proof.
  destruct c as [[] [] [] [] [] [] [] []]; vm_compute; intros H;
    first [reflexivity | discriminate H].
Qed.

Lemma nul_free_cons (c : ascii) (r : string) :
  nul_free (String c r) = true -> uchar (tolower c) <> 0%Z /\ nul_free r = true.
Proof.
  cbn. intros H. apply andb_prop in H. destruct H as [Hc Hr]. split; [|exact Hr].
  intros H0. apply tolower_nul in H0. subst c. discriminate Hc.
Qed.

Lemma strcasecmp_common (k a b : string) :
  nul_free a = true -> nul_free b = true ->
  strcasecmp k a = 0%Z -> strcasecmp k b = 0%Z -> str_lower a = str_lower b.
Proof.
  revert a b. induction k as [|c k IH]; intros [|ca a] [|cb b] Ha Hb Hka Hkb;
    try reflexivity;
    try (apply nul_free_cons in Ha; destruct Ha as [Hca Ha]);
    try (apply nul_free_cons in Hb; destruct Hb as [Hcb Hb]);
    cbn in Hka, Hkb; try lia.
  - destruct (uchar (tolower c) - uchar (tolower cb) =? 0)%Z eqn:E;
      [apply Z.eqb_eq in E; lia | lia].
  - destruct (uchar (tolower c) - uchar (tolower ca) =? 0)%Z eqn:E;
      [apply Z.eqb_eq in E; lia | lia].
  - destruct (uchar (tolower c) - uchar (tolower ca) =? 0)%Z eqn:Ea;
      [apply Z.eqb_eq in Ea | lia].
    destruct (uchar (tolower c) - uchar (tolower cb) =? 0)%Z eqn:Eb;
      [apply Z.eqb_eq in Eb | lia].
    cbn. assert (tolower ca = tolower cb) as -> by (apply uchar_inj; lia).
    f_equal. now apply IH.
Qed.

(** ** The table *)

Lemma field_specs_names_nul_free :
  forallb (fun spec => nul_free (name spec)) field_specs = true.
Proof. vm_compute. reflexivity. Qed.

Lemma In_field_specs_offset (spec : field_spec) :
  In spec field_specs ->
  offset spec < STATIC_ARRAY_SIZE field_specs /\
  nth (offset spec) field_specs null_spec = spec.
Proof.
  intros H. cbv [field_specs In] in H.
  repeat (destruct H as [H|H]; [subst spec; vm_compute; split; [lia | reflexivity]|]).
  destruct H.
Qed.

Lemma nth_field_specs (i : nat) :
  i < STATIC_ARRAY_SIZE field_specs ->
  In (nth i field_specs null_spec) field_specs /\
  offset (nth i field_specs null_spec) = i.
Proof.
  intros H. split.
  - apply nth_In. exact H.
  - do 17 (destruct i as [|i]; [reflexivity|]). vm_compute in H. lia.
Qed.

Lemma field_specs_lower_inj (f g : field_spec) :
  In f field_specs -> In g field_specs ->
  str_lower (name f) = str_lower (name g) -> f = g.
Proof.
  intros Hf Hg. cbv [field_specs In] in Hf, Hg.
  repeat (destruct Hf as [Hf|Hf]; [subst f|]); try destruct Hf;
    repeat (destruct Hg as [Hg|Hg]; [subst g|]); try destruct Hg;
    intros H; first [reflexivity | vm_compute in H; discriminate H].
Qed.

Lemma key_matches_unique (c : oconfig_item_t) (f g : field_spec) :
  In f field_specs -> In g field_specs ->
  key_matches c f = true -> key_matches c g = true -> f = g.
Proof.
  intros Hf Hg Mf Mg. apply field_specs_lower_inj; [exact Hf | exact Hg |].
  pose proof field_specs_names_nul_free as N. rewrite forallb_forall in N.
  apply (strcasecmp_common (key c)); [now apply N | now apply N | |];
    now apply Z.eqb_eq.
Qed.

(** What the search loop finds. *)
Lemma find_field_spec (k : string) (specs : list field_spec) (base : nat) :
  let r := find_field k specs base in
  base <= r <= base + List.length specs /\
  (r < base + List.length specs ->
   strcasecmp k (name (nth (r - base) specs null_spec)) = 0%Z) /\
  (forall j, j < r - base -> strcasecmp k (name (nth j specs null_spec)) <> 0%Z).
Proof.
  revert base. induction specs as [|spec rest IH]; intros base; cbn.
  - split; [lia|]. split; intros; lia.
  - destruct (strcasecmp k (name spec) =? 0)%Z eqn:E.
    + rewrite Nat.sub_diag. split; [lia|]. split.
      * intros _. now apply Z.eqb_eq.
      * intros j Hj. lia.
    + specialize (IH (S base)). cbn in IH. destruct IH as (Hr & Hm & Hn).
      apply Z.eqb_neq in E.
      set (r := find_field k rest (S base)) in *.
      split; [lia|]. split.
      * intros Hlt. replace (r - base) with (S (r - S base)) by lia.
        apply Hm. lia.
      * intros [|j] Hj; [exact E|]. apply Hn. lia.
Qed.

Lemma known_key_matches (c : oconfig_item_t) :
  known_key c = true ->
  key_matches c (nth (find_field (key c) field_specs 0) field_specs null_spec) = true.
Proof.
  unfold known_key, key_matches. intros H. apply Nat.ltb_lt in H.
  destruct (find_field_spec (key c) field_specs 0) as (_ & Hm & _).
  cbn zeta in Hm. rewrite Nat.sub_0_r in Hm. apply Z.eqb_eq. apply Hm. exact H.
Qed.

Lemma unknown_key_no_match (c : oconfig_item_t) (spec : field_spec) :
  known_key c = false -> In spec field_specs -> key_matches c spec = false.
Proof.
  unfold known_key, key_matches. intros H Hin. apply Nat.ltb_ge in H.
  destruct (find_field_spec (key c) field_specs 0) as (Hr & _ & Hn).
  cbn zeta in Hr, Hn. rewrite Nat.sub_0_r in Hn.
  apply In_field_specs_offset in Hin. destruct Hin as [Ho Hnth].
  apply Z.eqb_neq. rewrite <- Hnth. apply Hn. unfold STATIC_ARRAY_SIZE in *. lia.
Qed.

Lemma no_match_unknown_key (c : oconfig_item_t) :
  (forall spec, In spec field_specs -> key_matches c spec = false) ->
  known_key c = false.
Proof.
  intros H. destruct (known_key c) eqn:E; [|reflexivity].
  pose proof (known_key_matches c E) as M. rewrite H in M; [discriminate M|].
  apply nth_field_specs. apply Nat.ltb_lt. exact E.
Qed.

(** For an entry with a known key, the field found is the one the key
    matches. *)
Lemma key_matches_find (c : oconfig_item_t) (spec : field_spec) :
  In spec field_specs -> known_key c = true ->
  key_matches c spec = (find_field (key c) field_specs 0 =? offset spec).
Proof.
  intros Hin Hk. pose proof (known_key_matches c Hk) as M.
  unfold known_key in Hk. apply Nat.ltb_lt in Hk.
  destruct (nth_field_specs _ Hk) as [Hin' Hoff].
  destruct (key_matches c spec) eqn:E.
  - symmetry. apply Nat.eqb_eq.
    rewrite (key_matches_unique c _ _ Hin Hin' E M). exact (eq_sym Hoff).
  - symmetry. apply Nat.eqb_neq. intros Heq.
    apply In_field_specs_offset in Hin. destruct Hin as [_ Hnth].
    rewrite Heq, Hnth in M. congruence.
Qed.

(** ** The struct and its bytes *)

Lemma field_enabled_enable_field (s : curl_stats_t) (o o' : nat) :
  o < STATIC_ARRAY_SIZE field_specs ->
  field_enabled (enable_field s o) o' = (o =? o') || field_enabled s o'.
Proof.
  intros H. destruct s.
  do 17 (destruct o as [|o];
         [do 17 (destruct o' as [|o']; [reflexivity|]); destruct o'; reflexivity|]).
  vm_compute in H. lia.
Qed.

Lemma curl_stats_ext (s s' : curl_stats_t) :
  (forall o, o < STATIC_ARRAY_SIZE field_specs ->
             field_enabled s o = field_enabled s' o) -> s = s'.
Proof.
  intros H. destruct s, s'.
  pose proof (H 0) as H0. pose proof (H 1) as H1. pose proof (H 2) as H2.
  pose proof (H 3) as H3. pose proof (H 4) as H4. pose proof (H 5) as H5.
  pose proof (H 6) as H6. pose proof (H 7) as H7. pose proof (H 8) as H8.
  pose proof (H 9) as H9. pose proof (H 10) as H10. pose proof (H 11) as H11.
  pose proof (H 12) as H12. pose proof (H 13) as H13. pose proof (H 14) as H14.
  pose proof (H 15) as H15. pose proof (H 16) as H16. clear H.
  cbv in H0, H1, H2, H3, H4, H5, H6, H7, H8, H9, H10, H11, H12, H13, H14, H15, H16.
  rewrite H0, H1, H2, H3, H4, H5, H6, H7, H8, H9, H10, H11, H12, H13, H14, H15, H16
    by lia.
  reflexivity.
Qed.

(** ** The selector *)

Section SelectorProperties.

Variable IS_TRUE : string -> bool.

Lemma from_config_child_unknown (c : oconfig_item_t) (s : curl_stats_t) :
  known_key c = false ->
  from_config_child IS_TRUE c s = inl (UnknownField (key c)).
Proof.
  unfold known_key, from_config_child. intros H.
  apply Nat.ltb_ge in H. apply Nat.leb_le in H. now rewrite H.
Qed.

Lemma from_config_child_invalid (c : oconfig_item_t) (s : curl_stats_t) :
  known_key c = true -> single_boolean c = false ->
  from_config_child IS_TRUE c s = inl (InvalidValue (key c)).
Proof.
  unfold known_key, single_boolean, from_config_child. intros H Hv.
  apply Nat.ltb_lt in H. apply Nat.leb_gt in H. rewrite H.
  rewrite <- negb_andb, Hv. reflexivity.
Qed.

Lemma from_config_child_valid (c : oconfig_item_t) (s : curl_stats_t) :
  valid_child c = true ->
  from_config_child IS_TRUE c s =
  inr (if true_child IS_TRUE c
       then enable_field s (find_field (key c) field_specs 0) else s).
Proof.
  unfold valid_child. intros H. apply andb_prop in H. destruct H as [Hk Hv].
  unfold known_key in Hk. apply Nat.ltb_lt in Hk.
  unfold single_boolean in Hv. unfold from_config_child, true_child.
  destruct (nth_field_specs _ Hk) as [_ ->].
  apply Nat.leb_gt in Hk. rewrite Hk.
  rewrite <- negb_andb, Hv. apply andb_prop in Hv. destruct Hv as [-> _].
  cbn [negb andb]. destruct (is_true_value IS_TRUE (values_0 c)); reflexivity.
Qed.

Lemma from_config_children_app (pre post : list oconfig_item_t) (s : curl_stats_t) :
  from_config_children IS_TRUE (pre ++ post) s =
  match from_config_children IS_TRUE pre s with
  | inl e => inl e
  | inr s' => from_config_children IS_TRUE post s'
  end.
Proof.
  revert s. induction pre as [|c pre IH]; intros s;
    cbn [app from_config_children]; [reflexivity|].
  destruct (from_config_child IS_TRUE c s); [reflexivity | apply IH].
Qed.

(** The loop over valid entries: it ends with a struct, in which a field
    is set when it was set before or some entry for it carries a true
    value. *)
Lemma from_config_children_valid (cs : list oconfig_item_t) (s0 : curl_stats_t) :
  forallb valid_child cs = true ->
  exists s, from_config_children IS_TRUE cs s0 = inr s /\
    forall spec, In spec field_specs ->
      field_enabled s (offset spec) =
      field_enabled s0 (offset spec) || some_value_true IS_TRUE cs spec.
Proof.
  revert s0. induction cs as [|c cs IH]; intros s0 H;
    cbn [forallb] in H; cbn [from_config_children].
  - exists s0. split; [reflexivity|]. intros spec _. cbn. now rewrite orb_false_r.
  - apply andb_prop in H. destruct H as [Hc Hcs].
    rewrite (from_config_child_valid c s0 Hc).
    destruct (IH (if true_child IS_TRUE c
                  then enable_field s0 (find_field (key c) field_specs 0)
                  else s0) Hcs) as (s & Hs & Hen).
    exists s. split; [exact Hs|]. intros spec Hin. rewrite (Hen spec Hin).
    unfold valid_child in Hc. apply andb_prop in Hc. destruct Hc as [Hk _].
    unfold some_value_true. cbn [existsb].
    rewrite (key_matches_find c spec Hin Hk).
    destruct (true_child IS_TRUE c).
    + rewrite field_enabled_enable_field
        by (apply Nat.ltb_lt; exact Hk).
      rewrite andb_true_r.
      destruct (find_field (key c) field_specs 0 =? offset spec);
        destruct (field_enabled s0 (offset spec)); reflexivity.
    + rewrite andb_false_r. reflexivity.
Qed.

(** An entry that is not valid makes the loop fail, wherever it is. *)
Lemma from_config_children_fails (pre post : list oconfig_item_t)
  (c : oconfig_item_t) (s : curl_stats_t) :
  valid_child c = false ->
  exists e, from_config_children IS_TRUE (pre ++ c :: post) s = inl e.
Proof.
  intros Hc. revert s. induction pre as [|a pre IH]; intros s;
    cbn [app from_config_children].
  - unfold valid_child in Hc. destruct (known_key c) eqn:Hk.
    + cbn [andb] in Hc. rewrite (from_config_child_invalid c s Hk Hc). eauto.
    + rewrite (from_config_child_unknown c s Hk). eauto.
  - destruct (from_config_child IS_TRUE a s); [eauto | apply IH].
Qed.

(** The first entry that is not valid decides the error. *)
Lemma from_config_children_first_error (pre post : list oconfig_item_t)
  (c : oconfig_item_t) (s : curl_stats_t) :
  forallb valid_child pre = true -> valid_child c = false ->
  from_config_children IS_TRUE (pre ++ c :: post) s =
  inl (if known_key c then InvalidValue (key c) else UnknownField (key c)).
Proof.
  intros Hpre Hc. rewrite from_config_children_app.
  destruct (from_config_children_valid pre s Hpre) as (s' & -> & _).
  cbn [from_config_children].
  unfold valid_child in Hc. destruct (known_key c) eqn:Hk.
  - cbn [andb] in Hc. now rewrite (from_config_child_invalid c s' Hk Hc).
  - now rewrite (from_config_child_unknown c s' Hk).
Qed.

Lemma some_value_true_iff (cs : list oconfig_item_t) (spec : field_spec) :
  some_value_true IS_TRUE cs spec = true <->
  exists c, In c cs /\ key_matches c spec = true /\ true_child IS_TRUE c = true.
Proof.
  unfold some_value_true. rewrite existsb_exists. split.
  - intros (c & Hin & H). apply andb_prop in H. destruct H. eauto.
  - intros (c & Hin & H1 & H2). exists c. split; [exact Hin|]. now rewrite H1, H2.
Qed.

Lemma some_value_true_perm (cs cs' : list oconfig_item_t) (spec : field_spec) :
  Permutation cs cs' ->
  some_value_true IS_TRUE cs spec = some_value_true IS_TRUE cs' spec.
Proof.
  intros P. apply eq_true_iff_eq. rewrite !some_value_true_iff.
  split; intros (c & Hin & H); exists c; (split; [|exact H]).
  - now apply (Permutation_in _ P).
  - now apply (Permutation_in _ (Permutation_sym P)).
Qed.

Lemma valid_children_perm (cs cs' : list oconfig_item_t) :
  Permutation cs cs' ->
  forallb valid_child cs = true -> forallb valid_child cs' = true.
Proof.
  intros P. rewrite !forallb_forall. intros H c Hin. apply H.
  now apply (Permutation_in _ (Permutation_sym P)).
Qed.

(** Valid blocks with the same entries in any order give the same
    struct. *)
Lemma from_config_children_perm (cs cs' : list oconfig_item_t) (s0 : curl_stats_t) :
  Permutation cs cs' -> forallb valid_child cs = true ->
  from_config_children IS_TRUE cs' s0 = from_config_children IS_TRUE cs s0.
Proof.
  intros P V.
  destruct (from_config_children_valid cs s0 V) as (s & -> & Hs).
  destruct (from_config_children_valid cs' s0 (valid_children_perm _ _ P V))
    as (s' & -> & Hs').
  f_equal. apply curl_stats_ext. intros o Ho.
  destruct (nth_field_specs o Ho) as [Hin Hoff].
  rewrite <- Hoff, (Hs _ Hin), (Hs' _ Hin). f_equal.
  symmetry. now apply some_value_true_perm.
Qed.

Lemma from_config_children_inr_valid (cs : list oconfig_item_t)
  (s0 s : curl_stats_t) :
  from_config_children IS_TRUE cs s0 = inr s -> forallb valid_child cs = true.
Proof.
  revert s0. induction cs as [|c cs IH]; intros s0 H; [reflexivity|].
  cbn [forallb]. destruct (valid_child c) eqn:Hc.
  - cbn [from_config_children] in H. rewrite (from_config_child_valid c s0 Hc) in H.
    cbn [andb]. exact (IH _ H).
  - destruct (from_config_children_fails [] cs c s0 Hc) as [e He].
    cbn [app] in He. rewrite He in H. discriminate H.
Qed.

Lemma curl_stats_from_config_perm (ci ci' : oconfig_item_t) (s : curl_stats_t) :
  curl_stats_from_config IS_TRUE (Some ci) = (Some s, []) ->
  Permutation (children ci) (children ci') ->
  curl_stats_from_config IS_TRUE (Some ci') = (Some s, []).
Proof.
  unfold curl_stats_from_config. intros H P.
  destruct (from_config_children IS_TRUE (children ci) calloc_curl_stats)
    as [e|s1] eqn:E; [discriminate H|].
  rewrite (from_config_children_perm _ _ _ P (from_config_children_inr_valid _ _ _ E)).
  now rewrite E.
Qed.

Lemma field_enabled_calloc (o : nat) : field_enabled calloc_curl_stats o = false.
Proof.
  do 17 (destruct o as [|o]; [reflexivity|]). destruct o; reflexivity.
Qed.

(** C1 (as amended). For every valid configuration block
    [curl_stats_from_config] returns a struct and logs nothing; a field of
    the table is enabled in it exactly when some entry whose key names the
    field carries a true value (so a later false does not undo an earlier
    true); and the same entries in any other order give the same
    struct. *)
Theorem C1_valid_config_enables_fields_with_a_true_value (ci : oconfig_item_t) :
  forallb valid_child (children ci) = true ->
  exists s,
    curl_stats_from_config IS_TRUE (Some ci) = (Some s, []) /\
    (forall spec, In spec field_specs ->
       (field_enabled s (offset spec) = true <->
        exists c, In c (children ci) /\ key_matches c spec = true /\
                  true_child IS_TRUE c = true)) /\
    (forall ci', Permutation (children ci) (children ci') ->
       curl_stats_from_config IS_TRUE (Some ci') = (Some s, [])).
Proof.
  intros V. unfold curl_stats_from_config.
  destruct (from_config_children_valid (children ci) calloc_curl_stats V)
    as (s & Hs & Hen).
  exists s. rewrite Hs. split; [reflexivity|]. split.
  - intros spec Hin. rewrite (Hen spec Hin), field_enabled_calloc. cbn.
    apply some_value_true_iff.
  - intros ci' P. now rewrite (from_config_children_perm _ _ _ P V), Hs.
Qed.

(** C2 (as amended). When an entry whose key names a field of the table
    does not carry exactly one value, or carries one that is neither a
    string nor a boolean, [curl_stats_from_config] returns NULL and logs
    one error; the error is [InvalidValue] with the key of that entry when
    every entry before it is valid. A single string is accepted whatever
    it says. *)
Theorem C2_known_key_with_invalid_value_fails (ci : oconfig_item_t)
  (pre post : list oconfig_item_t) (c : oconfig_item_t) (spec : field_spec) :
  children ci = pre ++ c :: post ->
  In spec field_specs -> key_matches c spec = true ->
  single_boolean c = false ->
  fst (curl_stats_from_config IS_TRUE (Some ci)) = None /\
  (exists e, snd (curl_stats_from_config IS_TRUE (Some ci)) = [e]) /\
  (forallb valid_child pre = true ->
   curl_stats_from_config IS_TRUE (Some ci) = (None, [InvalidValue (key c)])) /\
  (forall k str s, known_key (entry k (OCONFIG_TYPE_STRING str)) = true ->
     exists s', from_config_child IS_TRUE (entry k (OCONFIG_TYPE_STRING str)) s
                = inr s').
Proof.
  intros Hci Hin Hm Hv.
  assert (Hk : known_key c = true).
  { destruct (known_key c) eqn:E; [reflexivity|].
    rewrite (unknown_key_no_match c spec E Hin) in Hm. discriminate Hm. }
  assert (Hc : valid_child c = false) by (unfold valid_child; now rewrite Hk, Hv).
  unfold curl_stats_from_config. rewrite Hci.
  destruct (from_config_children_fails pre post c calloc_curl_stats Hc) as [e He].
  split; [now rewrite He|]. split; [rewrite He; eexists; reflexivity|]. split.
  - intros Hpre.
    rewrite (from_config_children_first_error pre post c _ Hpre Hc), Hk.
    reflexivity.
  - intros k str s Hks. rewrite from_config_child_valid.
    + eexists. reflexivity.
    + unfold valid_child. now rewrite Hks.
Qed.

(** C5 (as amended). When the key of an entry matches no name of the table
    up to case, [curl_stats_from_config] returns NULL, never a partly
    filled struct, and logs one error; the error is [UnknownField] with
    that key when every entry before it is valid. *)
Theorem C5_unknown_key_fails (ci : oconfig_item_t)
  (pre post : list oconfig_item_t) (c : oconfig_item_t) :
  children ci = pre ++ c :: post ->
  (forall spec, In spec field_specs -> key_matches c spec = false) ->
  fst (curl_stats_from_config IS_TRUE (Some ci)) = None /\
  (exists e, snd (curl_stats_from_config IS_TRUE (Some ci)) = [e]) /\
  (forallb valid_child pre = true ->
   curl_stats_from_config IS_TRUE (Some ci) = (None, [UnknownField (key c)])).
Proof.
  intros Hci Hno. pose proof (no_match_unknown_key c Hno) as Hk.
  assert (Hc : valid_child c = false) by (unfold valid_child; now rewrite Hk).
  unfold curl_stats_from_config. rewrite Hci.
  destruct (from_config_children_fails pre post c calloc_curl_stats Hc) as [e He].
  split; [now rewrite He|]. split; [rewrite He; eexists; reflexivity|].
  intros Hpre.
  rewrite (from_config_children_first_error pre post c _ Hpre Hc), Hk.
  reflexivity.
Qed.

End SelectorProperties.

(** ** binary64 arithmetic *)

Lemma iter_pos_nat {A : Type} (f : A -> A) (p : positive) (x : A) :
  SpecFloat.iter_pos f p x = Nat.iter (Pos.to_nat p) f x.
Proof.
  revert x. induction p as [p IH|p IH|]; intros x; cbn [SpecFloat.iter_pos].
  - rewrite !IH, Pos2Nat.inj_xI. cbn [Nat.mul]. rewrite Nat.add_0_r.
    rewrite Nat.iter_succ_r, Nat.iter_add. reflexivity.
  - rewrite !IH, Pos2Nat.inj_xO. cbn [Nat.mul]. rewrite Nat.add_0_r.
    rewrite Nat.iter_add. reflexivity.
  - reflexivity.
Qed.

Lemma shr_1_shifted (q : positive) (n j : nat) :
  Nat.iter n shr_1 (Build_shr_record (Zpos (Pos.shiftl_nat q (n + j))) false false)
  = Build_shr_record (Zpos (Pos.shiftl_nat q j)) false false.
Proof.
  induction n as [|n IH]; [reflexivity|].
  rewrite Nat.iter_succ_r. cbn [Nat.add Pos.shiftl_nat nat_rect shr_1 orb].
  exact IH.
Qed.

Lemma digits2_shiftl_nat (q : positive) (n : nat) :
  Zpos (digits2_pos (Pos.shiftl_nat q n)) = (Zpos (digits2_pos q) + Z.of_nat n)%Z.
Proof.
  induction n as [|n IH]; [cbn; lia|].
  cbn [Pos.shiftl_nat nat_rect digits2_pos].
  change (nat_rect (fun _ => positive) q (fun _ => xO) n) with (Pos.shiftl_nat q n).
  rewrite Pos2Z.inj_succ, IH. lia.
Qed.

Lemma Zpos_shiftl_nat (q : positive) (n : nat) :
  Zpos (Pos.shiftl_nat q n) = (Zpos q * 2 ^ Z.of_nat n)%Z.
Proof.
  induction n as [|n IH]; [cbn; lia|].
  cbn [Pos.shiftl_nat nat_rect].
  change (nat_rect (fun _ => positive) q (fun _ => xO) n) with (Pos.shiftl_nat q n).
  rewrite Pos2Z.inj_xO, IH, Nat2Z.inj_succ, Z.pow_succ_r by lia. ring.
Qed.

(** The shift of [binary_round_aux] on a significand that ends in enough
    zeros: the zeros go, nothing is lost. *)
Lemma shr_fexp_shifted (q : positive) (j : nat) (ex : Z) :
  let n := (fexp prec emax (Zpos (digits2_pos q) + Z.of_nat j + ex) - ex)%Z in
  (n <= Z.of_nat j)%Z ->
  shr_fexp prec emax (Zpos (Pos.shiftl_nat q j)) ex loc_Exact =
  (Build_shr_record (Zpos (Pos.shiftl_nat q (j - Z.to_nat n))) false false,
   (ex + Z.of_nat (Z.to_nat n))%Z).
Proof.
  intros n Hn. unfold shr_fexp. cbn [Zdigits2 shr_record_of_loc].
  rewrite digits2_shiftl_nat. fold n. unfold shr.
  destruct n as [|p|p] eqn:E.
  - cbn [Z.to_nat]. now rewrite Nat.sub_0_r, Z.add_0_r.
  - rewrite iter_pos_nat.
    replace j with (Pos.to_nat p + (j - Pos.to_nat p)) at 1 by lia.
    rewrite shr_1_shifted. cbn [Z.to_nat]. now rewrite positive_nat_Z.
  - cbn [Z.to_nat]. now rewrite Nat.sub_0_r, Z.add_0_r.
Qed.

Lemma binary_round_aux_shifted (sx : bool) (q : positive) (j : nat) (ex : Z) :
  let n := (fexp prec emax (Zpos (digits2_pos q) + Z.of_nat j + ex) - ex)%Z in
  (n <= Z.of_nat j)%Z ->
  binary_round_aux prec emax sx (Zpos (Pos.shiftl_nat q j)) ex loc_Exact =
  if (ex + Z.of_nat (Z.to_nat n) <=? emax - prec)%Z
  then S754_finite sx (Pos.shiftl_nat q (j - Z.to_nat n)) (ex + Z.of_nat (Z.to_nat n))
  else S754_infinity sx.
Proof.
  intros n Hn. unfold binary_round_aux.
  rewrite (shr_fexp_shifted q j ex Hn). fold n.
  cbn [shr_m loc_of_shr_record round_nearest_even].
  pose proof (shr_fexp_shifted q (j - Z.to_nat n) (ex + Z.of_nat (Z.to_nat n))) as S2.
  cbv zeta in S2.
  replace (Zpos (digits2_pos q) + Z.of_nat (j - Z.to_nat n)
           + (ex + Z.of_nat (Z.to_nat n)))%Z
    with (Zpos (digits2_pos q) + Z.of_nat j + ex)%Z in S2 by lia.
  set (n' := (fexp prec emax (Zpos (digits2_pos q) + Z.of_nat j + ex)
              - (ex + Z.of_nat (Z.to_nat n)))%Z) in S2.
  assert (H2 : (n' <= 0)%Z) by (subst n'; fold n; lia).
  rewrite S2 by lia.
  replace (Z.to_nat n') with 0 by lia.
  cbn [shr_m]. rewrite Nat.sub_0_r, Z.add_0_r. reflexivity.
Qed.

Lemma SF2Q_shifted (sx : bool) (q : positive) (i : nat) (e : Z) :
  (SF2Q (S754_finite sx (Pos.shiftl_nat q i) e)
   == SF2Q (S754_finite sx q (e + Z.of_nat i)))%Q.
Proof.
  unfold SF2Q.
  assert (H : cond_Zopp sx (Zpos (Pos.shiftl_nat q i))
              = (cond_Zopp sx (Zpos q) * 2 ^ Z.of_nat i)%Z).
  { rewrite Zpos_shiftl_nat. destruct sx; cbn [cond_Zopp]; ring. }
  rewrite H, inject_Z_mult, Zpower_Qpower by lia.
  rewrite (Qpower_plus 2 e (Z.of_nat i)) by discriminate.
  change (inject_Z 2) with 2%Q. ring.
Qed.

Lemma digits2_lower (q : positive) :
  (2 ^ (Zpos (digits2_pos q) - 1) <= Zpos q)%Z.
Proof.
  induction q as [q IH|q IH|]; cbn [digits2_pos]; [| |cbn; lia].
  - rewrite Pos2Z.inj_succ, (Pos2Z.inj_xI q).
    replace (Z.succ (Zpos (digits2_pos q)) - 1)%Z
      with (Z.succ (Zpos (digits2_pos q) - 1)) by lia.
    rewrite Z.pow_succ_r by lia. lia.
  - rewrite Pos2Z.inj_succ, (Pos2Z.inj_xO q).
    replace (Z.succ (Zpos (digits2_pos q)) - 1)%Z
      with (Z.succ (Zpos (digits2_pos q) - 1)) by lia.
    rewrite Z.pow_succ_r by lia. lia.
Qed.

Lemma digits2_upper (q : positive) (b : Z) :
  (0 <= b)%Z -> (Zpos q < 2 ^ b)%Z -> (Zpos (digits2_pos q) <= b)%Z.
Proof.
  intros Hb Hq. destruct (Z.le_gt_cases (Zpos (digits2_pos q)) b) as [H|H];
    [exact H|].
  pose proof (digits2_lower q) as L.
  assert (2 ^ b <= 2 ^ (Zpos (digits2_pos q) - 1))%Z
    by (apply Z.pow_le_mono_r; lia).
  lia.
Qed.

(** Rounding an integer with at most 53 significant bits loses nothing. *)
Lemma binary_round_exact (sx : bool) (p q : positive) (k : nat) :
  p = Pos.shiftl_nat q k ->
  (Zpos (digits2_pos q) <= 53)%Z -> (Zpos (digits2_pos p) <= 1024)%Z ->
  exists m e,
    binary_round prec emax sx p 0 = S754_finite sx m e /\
    (SF2Q (S754_finite sx m e) == inject_Z (cond_Zopp sx (Zpos p)))%Q.
Proof.
  intros Hp Hq Hrange. unfold binary_round, shl_align.
  assert (Hf : fexp prec emax (Zpos (digits2_pos p) + 0)
               = (Zpos (digits2_pos p) - 53)%Z).
  { unfold fexp, emin, prec, emax. lia. }
  rewrite Hf.
  destruct (Zpos (digits2_pos p) - 53 - 0)%Z as [|d|d] eqn:E.
  - pose proof (binary_round_aux_shifted sx q k 0) as B. cbv zeta in B.
    rewrite <- digits2_shiftl_nat, <- Hp, Hf in B.
    rewrite B by lia. rewrite E. cbn [Z.to_nat Z.of_nat Z.add].
    rewrite Nat.sub_0_r. cbn. eexists. eexists. split; [reflexivity|].
    rewrite <- Hp. unfold SF2Q. cbn. ring.
  - pose proof (binary_round_aux_shifted sx q k 0) as B. cbv zeta in B.
    rewrite <- digits2_shiftl_nat, <- Hp, Hf in B.
    assert (Hdk : (Zpos d <= Z.of_nat k)%Z).
    { rewrite Hp, digits2_shiftl_nat in E. lia. }
    rewrite B by lia. rewrite E.
    assert (Hle : (0 + Z.of_nat (Z.to_nat (Zpos d)) <=? emax - prec)%Z = true)
      by (apply Z.leb_le; unfold emax, prec; lia).
    rewrite Hle. eexists. eexists. split; [reflexivity|].
    rewrite SF2Q_shifted.
    replace (0 + Z.of_nat (Z.to_nat (Zpos d)) + Z.of_nat (k - Z.to_nat (Zpos d)))%Z
      with (0 + Z.of_nat k)%Z by lia.
    rewrite <- SF2Q_shifted, <- Hp. unfold SF2Q. cbn. ring.
  - rewrite Pos2Nat.inj_iter.
    change (nat_rect (fun _ => positive) p (fun _ => xO) (Pos.to_nat d))
      with (Pos.shiftl_nat p (Pos.to_nat d)).
    pose proof (binary_round_aux_shifted sx p (Pos.to_nat d)
                  (Zpos (digits2_pos p) - 53)) as B. cbv zeta in B.
    assert (Hn : (fexp prec emax (Zpos (digits2_pos p) + Z.of_nat (Pos.to_nat d)
                                  + (Zpos (digits2_pos p) - 53))
                  - (Zpos (digits2_pos p) - 53))%Z = 0%Z).
    { unfold fexp, emin, prec, emax. lia. }
    rewrite Hn in B. rewrite B by lia. cbn [Z.to_nat Z.of_nat].
    assert (Hle : (Zpos (digits2_pos p) - 53 + 0 <=? emax - prec)%Z = true)
      by (apply Z.leb_le; unfold emax, prec; lia).
    rewrite Hle, Nat.sub_0_r. eexists. eexists. split; [reflexivity|].
    rewrite SF2Q_shifted.
    replace (Zpos (digits2_pos p) - 53 + 0 + Z.of_nat (Pos.to_nat d))%Z
      with 0%Z by lia.
    unfold SF2Q. cbn. ring.
Qed.

Lemma representable_pos (p : positive) (m k : Z) :
  (0 <= k)%Z -> (Z.abs m < 2 ^ 53)%Z -> Zpos p = (Z.abs m * 2 ^ k)%Z ->
  exists q, p = Pos.shiftl_nat q (Z.to_nat k) /\ (Zpos (digits2_pos q) <= 53)%Z.
Proof.
  intros Hk Hm Hp.
  assert (0 < 2 ^ k)%Z by (apply Z.pow_pos_nonneg; lia).
  destruct (Z.abs m) as [|q|q] eqn:E; [lia| |lia].
  exists q. split.
  - apply Pos2Z.inj. rewrite Zpos_shiftl_nat, Z2Nat.id by lia. exact Hp.
  - apply digits2_upper; [lia | exact Hm].
Qed.

(** [(double)raw] is exact on the integers a [double] can hold. *)
Lemma double_of_long_exact (raw : Z) :
  (LONG_MIN <= raw <= LONG_MAX)%Z -> representable raw ->
  is_finite (double_of_long raw) = true /\
  (SF2Q (double_of_long raw) == inject_Z raw)%Q.
Proof.
  unfold LONG_MIN, LONG_MAX. intros Hrange (m & k & Hk & Hm & Hraw).
  unfold double_of_long, binary_normalize.
  destruct raw as [|p|p].
  - split; reflexivity.
  - destruct (representable_pos p m k Hk Hm) as (q & Hp & Hq).
    { rewrite Hraw. assert (0 < 2 ^ k)%Z by (apply Z.pow_pos_nonneg; lia). nia. }
    destruct (binary_round_exact false p q _ Hp Hq) as (m' & e' & -> & Hv).
    { pose proof (digits2_upper p 64). lia. }
    split; [reflexivity | exact Hv].
  - destruct (representable_pos p m k Hk Hm) as (q & Hp & Hq).
    { assert (0 < 2 ^ k)%Z by (apply Z.pow_pos_nonneg; lia). nia. }
    destruct (binary_round_exact true p q _ Hp Hq) as (m' & e' & -> & Hv).
    { pose proof (digits2_upper p 64). lia. }
    split; [reflexivity | exact Hv].
Qed.

Lemma small_representable (n : Z) : (Z.abs n <= 2 ^ 53)%Z -> representable n.
Proof.
  intros H. destruct (Z.eq_dec (Z.abs n) (2 ^ 53)) as [E|E].
  - exists (Z.sgn n), 53%Z. split; [lia|]. split; [lia|]. lia.
  - exists n, 0%Z. split; [lia|]. split; [lia|]. lia.
Qed.

(** [v.gauge *= 8] is exact unless it overflows. *)
Lemma double_times_8_exact (v : double) :
  valid_binary prec emax v = true -> is_finite (double_times_8 v) = true ->
  (SF2Q (double_times_8 v) == 8 * SF2Q v)%Q.
Proof.
  intros Hvalid Hfin. unfold double_times_8 in *.
  change (double_of_long 8) with (S754_finite false 4503599627370496 (-49)) in *.
  destruct v as [s|s| |s m e]; try discriminate Hfin.
  - cbn. reflexivity.
  - cbn [SFmul] in *. rewrite xorb_false_r in *.
    rewrite Pos.mul_comm in *.
    change (Pos.mul 4503599627370496 m) with (Pos.shiftl_nat m 52) in *.
    cbn [valid_binary] in Hvalid. unfold bounded, canonical_mantissa in Hvalid.
    apply andb_prop in Hvalid. destruct Hvalid as [Hc He].
    apply Z.eqb_eq in Hc. apply Z.leb_le in He.
    pose proof (binary_round_aux_shifted s m 52 (e + -49)) as B. cbv zeta in B.
    set (n := (fexp prec emax (Zpos (digits2_pos m) + Z.of_nat 52 + (e + -49))
               - (e + -49))%Z) in B.
    assert (Hn : (49 <= n <= 52)%Z).
    { subst n. unfold fexp, emin, prec, emax in *. lia. }
    rewrite B in * by lia.
    destruct (e + -49 + Z.of_nat (Z.to_nat n) <=? emax - prec)%Z;
      [|discriminate Hfin].
    rewrite SF2Q_shifted.
    replace (e + -49 + Z.of_nat (Z.to_nat n) + Z.of_nat (52 - Z.to_nat n))%Z
      with (e + 3)%Z by lia.
    unfold SF2Q. rewrite (Qpower_plus 2 e 3) by discriminate.
    change (2 ^ 3)%Q with 8%Q. ring.
Qed.

(** ** The sink log *)

Lemma emitted_app (l1 l2 : sink_log) : emitted (l1 ++ l2) = emitted l1 ++ emitted l2.
Proof. unfold emitted. now rewrite filter_app, map_app. Qed.

Lemma emitted_accepted (evs : sink_log) :
  Forall (fun e => (0 <= snd e)%Z) evs -> emitted evs = map fst evs.
Proof.
  unfold emitted. induction 1 as [|e evs He _ IH]; cbn; [reflexivity|].
  apply Z.leb_le in He. rewrite He. cbn. now rewrite IH.
Qed.

Lemma emitted_refused (vl : value_list_t) (status : Z) :
  (status < 0)%Z -> emitted [(vl, status)] = [].
Proof.
  intros H. unfold emitted. cbn. apply Z.leb_gt in H. now rewrite H.
Qed.

(** ** Value lists *)

Lemma meta_of_prepared (vl : value_list_t) (ty ti : string) :
  meta_of (prepared vl ty ti) = meta_of vl.
Proof. reflexivity. Qed.

Lemma meta_of_sample (vl : value_list_t) (ty ti : string) (g : gauge_t) :
  meta_of (sample vl ty ti g) = meta_of vl.
Proof. reflexivity. Qed.

Lemma sample_meta (vl vl' : value_list_t) (ty ti : string) (g : gauge_t) :
  meta_of vl = meta_of vl' -> sample vl ty ti g = sample vl' ty ti g.
Proof.
  destruct vl, vl'. unfold meta_of, sample, prepared, set_values,
    set_type_instance, set_type. cbn. intros H. inversion H. reflexivity.
Qed.

Lemma meta_fields (vl vl' : value_list_t) :
  meta_of vl' = meta_of vl ->
  vl_time vl' = vl_time vl /\ vl_interval vl' = vl_interval vl /\
  vl_host vl' = vl_host vl /\ vl_plugin vl' = vl_plugin vl /\
  vl_plugin_instance vl' = vl_plugin_instance vl.
Proof. unfold meta_of. intros H. inversion H. auto. Qed.

(** ** Names and bounded copies *)

Lemma str_append_inj (p a b : string) :
  String.append p a = String.append p b -> a = b.
Proof.
  induction p as [|c p IH]; cbn; intros H; [exact H|].
  inversion H. now apply IH.
Qed.

Lemma str_take_all (n : nat) (a : string) :
  String.length a <= n -> str_take n a = a.
Proof.
  revert n. induction a as [|c a IH]; intros [|n] H; cbn in *;
    try reflexivity; try lia.
  f_equal. apply IH. lia.
Qed.

Lemma sstrncpy_common_fits (src : string) (n : nat) :
  String.length src < n -> sstrncpy_common src n = src.
Proof. intros H. apply str_take_all. lia. Qed.

Lemma ssnprintf_common_fits (n : nat) (a b : string) :
  String.length (String.append a b) < n ->
  ssnprintf_common n a b = String.append a b.
Proof. intros H. apply str_take_all. lia. Qed.

Lemma field_specs_name_inj (f g : field_spec) :
  In f field_specs -> In g field_specs -> name f = name g -> f = g.
Proof.
  intros Hf Hg H. apply field_specs_lower_inj; [exact Hf | exact Hg |].
  now rewrite H.
Qed.

Lemma field_specs_NoDup : NoDup field_specs.
Proof.
  apply (NoDup_map_inv name). vm_compute.
  repeat (constructor; [cbn; intuition discriminate|]). constructor.
Qed.

(** ** The dispatcher *)

Section DispatcherProperties.

Variable DATA_MAX_NAME_LEN : nat.
Variable VALUE_LIST_INIT : value_list_t.
Variable sstrncpy : string -> nat -> string.
Variable ssnprintf : nat -> string -> string -> string.
Variable sink : sink_log -> value_list_t -> Z.

Variable s : curl_stats_t.
Variable curl : CURL.
Variable instance_prefix : option string.

(** In what follows [sample_of vl spec] is the value list of the entry
    [spec] as the loop builds it from [vl]: the type and the type instance
    as [sstrncpy] and [ssnprintf] leave them in their buffers, and the
    converted value. *)
Local Abbreviation enabled := (fun spec => field_enabled s (offset spec)).
Local Abbreviation prefix := (string_or_empty instance_prefix).
Local Abbreviation type_of spec := (sstrncpy (type spec) DATA_MAX_NAME_LEN).
Local Abbreviation type_instance_of spec :=
  (ssnprintf DATA_MAX_NAME_LEN prefix (name spec)).
Local Abbreviation sample_of vl spec :=
  (sample vl (type_of spec) (type_instance_of spec) (converted_value curl spec)).
Local Abbreviation step :=
  (dispatch_field DATA_MAX_NAME_LEN sstrncpy ssnprintf sink s curl instance_prefix).
Local Abbreviation loop :=
  (dispatch_fields DATA_MAX_NAME_LEN sstrncpy ssnprintf sink s curl instance_prefix).
Local Abbreviation init :=
  (init_value_list DATA_MAX_NAME_LEN VALUE_LIST_INIT sstrncpy).
Local Abbreviation dispatch :=
  (curl_stats_dispatch DATA_MAX_NAME_LEN VALUE_LIST_INIT sstrncpy ssnprintf sink).

Lemma call_dispatcher_spec (spec : field_spec) (vl : value_list_t) (log : sink_log) :
  call_dispatcher sink (dispatcher spec) curl (info spec) vl log =
  if (getinfo_code curl spec =? CURLE_OK)%Z
  then (sink log (set_values vl [converted_value curl spec]),
        set_values vl [converted_value curl spec],
        log ++ [(set_values vl [converted_value curl spec],
                 sink log (set_values vl [converted_value curl spec]))])
  else ((-1)%Z, vl, log).
Proof.
  unfold getinfo_code, converted_value.
  destruct (dispatcher spec); cbn [call_dispatcher];
    unfold dispatch_gauge, dispatch_speed, dispatch_size, plugin_dispatch_values.
  - destruct (curl_easy_getinfo_double curl (info spec)) as [code g]; cbn [fst snd].
    destruct (code =? CURLE_OK)%Z; reflexivity.
  - destruct (curl_easy_getinfo_double curl (info spec)) as [code g]; cbn [fst snd].
    destruct (code =? CURLE_OK)%Z; reflexivity.
  - destruct (curl_easy_getinfo_long curl (info spec)) as [code g]; cbn [fst snd].
    destruct (code =? CURLE_OK)%Z; reflexivity.
Qed.

Lemma dispatch_field_disabled (spec : field_spec) (vl : value_list_t) (log : sink_log) :
  field_enabled s (offset spec) = false ->
  step spec vl log
  = (0%Z, vl, log).
Proof. unfold dispatch_field. now intros ->. Qed.

Lemma dispatch_field_enabled (spec : field_spec) (vl : value_list_t) (log : sink_log) :
  field_enabled s (offset spec) = true ->
  step spec vl log =
  if (getinfo_code curl spec =? CURLE_OK)%Z
  then (sink log (sample_of vl spec), sample_of vl spec,
        log ++ [(sample_of vl spec, sink log (sample_of vl spec))])
  else ((-1)%Z, prepared vl (type_of spec) (type_instance_of spec), log).
Proof.
  unfold dispatch_field. intros ->. cbn [negb]. cbv zeta.
  rewrite call_dispatcher_spec. reflexivity.
Qed.

(** The loop over two runs of entries is the loop over the first and,
    unless that failed, the loop over the second. *)
Lemma dispatch_fields_app (l1 l2 : list field_spec) (vl : value_list_t)
  (log : sink_log) :
  loop (l1 ++ l2) vl log =
  let '(status, vl1, log1) := loop l1 vl log in
  if (status <? 0)%Z then (status, vl1, log1) else loop l2 vl1 log1.
Proof.
  revert vl log. induction l1 as [|spec l1 IH]; intros vl log;
    cbn [app dispatch_fields].
  - reflexivity.
  - destruct (step spec vl log) as [[st vl1] log1].
    destruct (st <? 0)%Z eqn:E; [now rewrite E | apply IH].
Qed.

(** A loop that does not fail hands the value list of every enabled entry
    to the sink, in the order of the entries, and each is taken. *)
Lemma dispatch_fields_ok (specs : list field_spec) (vl : value_list_t)
  (log : sink_log) (st : Z) (vl' : value_list_t) (log' : sink_log) :
  loop specs vl log = (st, vl', log') -> (0 <= st)%Z ->
  st = 0%Z /\ meta_of vl' = meta_of vl /\
  exists evs, log' = log ++ evs /\
    map fst evs = map (fun spec => sample_of vl spec) (filter enabled specs) /\
    Forall (fun e => (0 <= snd e)%Z) evs /\
    Forall (fun spec => getinfo_code curl spec = CURLE_OK) (filter enabled specs).
Proof.
  revert vl log. induction specs as [|spec specs IH]; intros vl log H Hst;
    cbn [dispatch_fields filter] in *.
  - inversion H; subst. repeat split. exists []. rewrite app_nil_r.
    repeat split; constructor.
  - destruct (field_enabled s (offset spec)) eqn:En.
    + rewrite (dispatch_field_enabled spec vl log En) in H.
      destruct (getinfo_code curl spec =? CURLE_OK)%Z eqn:Ec.
      * destruct (sink log (sample_of vl spec) <? 0)%Z eqn:Es.
        { inversion H; subst. apply Z.ltb_lt in Es. lia. }
        destruct (IH _ _ H Hst) as (-> & Hm & evs & -> & Hf & Ha & Hc).
        split; [reflexivity|]. split; [now rewrite Hm|].
        exists ((sample_of vl spec, sink log (sample_of vl spec)) :: evs).
        split; [now rewrite <- app_assoc|]. split; [|split].
        -- cbn [map fst]. f_equal. rewrite Hf. apply map_ext. intros a.
           apply sample_meta. reflexivity.
        -- constructor; [cbn; now apply Z.ltb_ge in Es | exact Ha].
        -- constructor; [now apply Z.eqb_eq in Ec | exact Hc].
      * cbn in H. inversion H; subst. lia.
    + rewrite (dispatch_field_disabled spec vl log En) in H. cbn in H.
      apply (IH _ _ H Hst).
Qed.

(** Whatever the outcome, each value list handed to the sink is the one
    of an enabled entry whose value could be read. *)
Lemma dispatch_fields_events (specs : list field_spec) (vl : value_list_t)
  (log : sink_log) (st : Z) (vl' : value_list_t) (log' : sink_log) :
  loop specs vl log = (st, vl', log') ->
  meta_of vl' = meta_of vl /\
  exists evs, log' = log ++ evs /\
    Forall (fun e => exists spec, In spec specs /\
              field_enabled s (offset spec) = true /\
              fst e = sample_of vl spec) evs.
Proof.
  revert vl log. induction specs as [|spec specs IH]; intros vl log H;
    cbn [dispatch_fields] in *.
  - inversion H; subst. split; [reflexivity|]. exists []. rewrite app_nil_r.
    split; constructor.
  - destruct (field_enabled s (offset spec)) eqn:En.
    + rewrite (dispatch_field_enabled spec vl log En) in H.
      destruct (getinfo_code curl spec =? CURLE_OK)%Z eqn:Ec.
      * assert (Hev : Forall (fun e => exists spec0, In spec0 (spec :: specs) /\
                        field_enabled s (offset spec0) = true /\
                        fst e = sample_of vl spec0)
                        [(sample_of vl spec, sink log (sample_of vl spec))]).
        { constructor; [|constructor]. exists spec. cbn. auto. }
        destruct (sink log (sample_of vl spec) <? 0)%Z eqn:Es.
        { inversion H; subst. split; [reflexivity|]. eauto. }
        destruct (IH _ _ H) as (Hm & evs & -> & Hf).
        split; [now rewrite Hm|].
        exists ((sample_of vl spec, sink log (sample_of vl spec)) :: evs).
        split; [now rewrite <- app_assoc|].
        constructor; [now inversion Hev|].
        eapply Forall_impl; [|exact Hf]. cbn beta.
        intros e (spec0 & Hin & He & Hs). exists spec0.
        split; [now right|]. split; [exact He|]. rewrite Hs.
        apply sample_meta. reflexivity.
      * cbn in H. inversion H; subst. split; [reflexivity|].
        exists []. rewrite app_nil_r. split; constructor.
    + rewrite (dispatch_field_disabled spec vl log En) in H. cbn in H.
      destruct (IH _ _ H) as (Hm & evs & -> & Hf).
      split; [exact Hm|]. exists evs. split; [reflexivity|].
      eapply Forall_impl; [|exact Hf]. cbn beta.
      intros e (spec0 & Hin & He & Hs). exists spec0. split; [now right|]. auto.
Qed.

Lemma dispatch_fields_filter (specs : list field_spec) (vl : value_list_t)
  (log : sink_log) :
  loop specs vl log = loop (filter enabled specs) vl log.
Proof.
  revert vl log. induction specs as [|spec specs IH]; intros vl log;
    cbn [filter]; [reflexivity|].
  destruct (field_enabled s (offset spec)) eqn:En; cbn [dispatch_fields].
  - destruct (step spec vl log) as [[st vl1] log1].
    destruct (st <? 0)%Z; [reflexivity | apply IH].
  - rewrite (dispatch_field_disabled spec vl log En). cbn. apply IH.
Qed.

Lemma with_type_instance_app (ti : string) (l1 l2 : sink_log) :
  with_type_instance ti (l1 ++ l2) =
  with_type_instance ti l1 ++ with_type_instance ti l2.
Proof. apply filter_app. Qed.

(** Where no type instance is cut, value lists of other entries of the
    table do not carry the type instance of [spec]. *)
Lemma with_type_instance_others (evs : sink_log) (l : list field_spec)
  (vl : value_list_t) (spec : field_spec) :
  In spec field_specs ->
  (forall f, In f field_specs ->
     type_instance_of f = String.append prefix (name f)) ->
  (forall f, In f l -> In f field_specs /\ f <> spec) ->
  Forall (fun e => exists f, In f l /\ field_enabled s (offset f) = true /\
                    fst e = sample_of vl f) evs ->
  with_type_instance (String.append prefix (name spec)) evs = [].
Proof.
  intros Hin Hexact Hl. induction 1 as [|e evs (f & Hf & _ & He) _ IH];
    [reflexivity|].
  unfold with_type_instance in *. cbn [filter]. rewrite He.
  change (vl_type_instance (sample_of vl f)) with (type_instance_of f).
  destruct (Hl f Hf) as [Hf' Hne]. rewrite (Hexact f Hf').
  destruct (String.eqb_spec (String.append prefix (name f))
                            (String.append prefix (name spec)))
    as [E|_]; [|exact IH].
  exfalso. apply Hne. apply str_append_inj in E.
  exact (field_specs_name_inj _ _ Hf' Hin E).
Qed.

Lemma with_type_instance_own (vl : value_list_t) (spec : field_spec) (status : Z) :
  type_instance_of spec = String.append prefix (name spec) ->
  with_type_instance (String.append prefix (name spec))
    [(sample_of vl spec, status)] = [(sample_of vl spec, status)].
Proof.
  intros Hexact. unfold with_type_instance. cbn [filter fst].
  change (vl_type_instance (sample_of vl spec)) with (type_instance_of spec).
  rewrite Hexact, String.eqb_refl. reflexivity.
Qed.

(** C3 (as amended). Let [sstrncpy] and [ssnprintf] copy what fits their
    buffer as it is, and let the prefix be short enough for the type
    instance of every entry of the table (the prefix followed by the name)
    to fit [DATA_MAX_NAME_LEN] bytes, as the type of the entry [spec] does.
    If [spec] is disabled, no value list with its type instance is handed to
    the sink. If it is enabled, its value can be read and the loop over the
    entries before it did not fail, exactly one is: its type is the type of
    the entry, its type instance the prefix followed by the name, and its
    single value the raw value after the conversion of the dispatcher (a
    gauge as it is, a speed times 8, a size or count converted to
    [double]). *)
Theorem C3_one_value_list_per_enabled_field
  (hostname plugin plugin_instance : option string) (log : sink_log)
  (pre post : list field_spec) (spec : field_spec) :
  (forall src n, String.length src < n -> sstrncpy src n = src) ->
  (forall n a b, String.length (String.append a b) < n ->
     ssnprintf n a b = String.append a b) ->
  (forall f, In f field_specs ->
     String.length (String.append (string_or_empty instance_prefix) (name f))
     < DATA_MAX_NAME_LEN) ->
  String.length (type spec) < DATA_MAX_NAME_LEN ->
  field_specs = pre ++ spec :: post ->
  let vl := init_value_list DATA_MAX_NAME_LEN VALUE_LIST_INIT sstrncpy
              hostname plugin plugin_instance in
  let ti := String.append (string_or_empty instance_prefix) (name spec) in
  exists evs,
    snd (curl_stats_dispatch DATA_MAX_NAME_LEN VALUE_LIST_INIT sstrncpy ssnprintf
           sink (Some s) (Some curl) hostname plugin plugin_instance
           instance_prefix log)
    = log ++ evs /\
    (field_enabled s (offset spec) = false -> with_type_instance ti evs = []) /\
    (field_enabled s (offset spec) = true ->
     getinfo_code curl spec = CURLE_OK ->
     fst (fst (dispatch_fields DATA_MAX_NAME_LEN sstrncpy ssnprintf sink s curl
                 instance_prefix pre vl log)) = 0%Z ->
     exists status,
       with_type_instance ti evs =
       [(Build_value_list_t [converted_value curl spec] (vl_time vl)
           (vl_interval vl) (vl_host vl) (vl_plugin vl) (vl_plugin_instance vl)
           (type spec) ti, status)]).
Proof.
  intros Hcpy Hfmt Hfits Htype Hsplit vl ti.
  assert (Hin : In spec field_specs) by (rewrite Hsplit; apply in_elt).
  assert (Hexact : forall f, In f field_specs ->
                     type_instance_of f = String.append prefix (name f)).
  { intros f Hf. apply Hfmt. now apply Hfits. }
  pose proof field_specs_NoDup as ND. rewrite Hsplit in ND.
  apply NoDup_remove_2 in ND.
  assert (Hpre : forall f, In f pre -> In f field_specs /\ f <> spec).
  { intros f Hf. split.
    - rewrite Hsplit. apply in_or_app. now left.
    - intros ->. apply ND. apply in_or_app. now left. }
  assert (Hpost : forall f, In f post -> In f field_specs /\ f <> spec).
  { intros f Hf. split.
    - rewrite Hsplit. apply in_or_app. right. now right.
    - intros ->. apply ND. apply in_or_app. now right. }
  unfold curl_stats_dispatch. fold vl. rewrite Hsplit, dispatch_fields_app.
  destruct (loop pre vl log) as [[st1 vl1] log1] eqn:E1.
  destruct (dispatch_fields_events pre vl log st1 vl1 log1 E1)
    as (Hm1 & evs1 & -> & Hev1).
  pose proof (with_type_instance_others evs1 pre vl spec Hin Hexact Hpre Hev1) as F1.
  fold ti in F1.
  destruct (st1 <? 0)%Z eqn:Est1.
  { exists evs1. split; [reflexivity|]. split; [intros _; exact F1|].
    intros _ _ H0. cbn in H0. subst st1. discriminate Est1. }
  cbn [dispatch_fields].
  destruct (field_enabled s (offset spec)) eqn:En.
  - rewrite (dispatch_field_enabled spec vl1 _ En).
    destruct (getinfo_code curl spec =? CURLE_OK)%Z eqn:Ec.
    + set (status := sink (log ++ evs1) (sample_of vl1 spec)).
      assert (Hsmp : sample_of vl1 spec =
                     Build_value_list_t [converted_value curl spec] (vl_time vl)
                       (vl_interval vl) (vl_host vl) (vl_plugin vl)
                       (vl_plugin_instance vl) (type spec) ti).
      { rewrite (Hcpy _ _ Htype), (Hexact spec Hin).
        unfold sample, prepared, set_values, set_type_instance, set_type. cbn.
        destruct (meta_fields _ _ Hm1) as (-> & -> & -> & -> & ->). reflexivity. }
      pose proof (with_type_instance_own vl1 spec status (Hexact spec Hin)) as Fown.
      fold ti in Fown.
      destruct (status <? 0)%Z eqn:Es.
      * exists (evs1 ++ [(sample_of vl1 spec, status)]).
        split; [cbn [snd]; now rewrite <- app_assoc|].
        split; [intros H; discriminate H|]. intros _ _ _. exists status.
        now rewrite with_type_instance_app, F1, Fown, Hsmp.
      * destruct (loop post (sample_of vl1 spec)
                    ((log ++ evs1) ++ [(sample_of vl1 spec, status)]))
          as [[st2 vl2] log2] eqn:E2.
        destruct (dispatch_fields_events post _ _ st2 vl2 log2 E2)
          as (_ & evs2 & -> & Hev2).
        pose proof (with_type_instance_others evs2 post _ spec Hin Hexact Hpost Hev2)
          as F2.
        fold ti in F2.
        exists (evs1 ++ [(sample_of vl1 spec, status)] ++ evs2).
        split; [cbn [snd]; now rewrite <- !app_assoc|].
        split; [intros H; discriminate H|]. intros _ _ _. exists status.
        now rewrite !with_type_instance_app, F1, F2, Fown, Hsmp.
    + cbn. exists evs1. split; [reflexivity|].
      split; [intros H; discriminate H|]. intros _ Hc _.
      rewrite Hc in Ec. discriminate Ec.
  - rewrite (dispatch_field_disabled spec vl1 _ En). cbn [Z.ltb Z.compare].
    destruct (loop post vl1 (log ++ evs1)) as [[st2 vl2] log2] eqn:E2.
    destruct (dispatch_fields_events post _ _ st2 vl2 log2 E2)
      as (_ & evs2 & -> & Hev2).
    pose proof (with_type_instance_others evs2 post _ spec Hin Hexact Hpost Hev2)
      as F2.
    fold ti in F2.
    exists (evs1 ++ evs2). split; [cbn [snd]; now rewrite <- app_assoc|].
    split; [|intros H; discriminate H]. intros _.
    now rewrite with_type_instance_app, F1, F2.
Qed.

Lemma filter_enabled_specs (l : list field_spec) :
  (forall f, In f l -> In f (enabled_specs s)) -> filter enabled l = l.
Proof.
  induction l as [|f l IH]; intros H; [reflexivity|]. cbn [filter].
  assert (Hf : field_enabled s (offset f) = true).
  { specialize (H f (or_introl eq_refl)). unfold enabled_specs in H.
    apply filter_In in H. apply H. }
  rewrite Hf. f_equal. apply IH. intros g Hg. apply H. now right.
Qed.

(** C4. Let [spec] be the enabled field at position [k] of the table
    (counting the enabled ones from 0), reached because the loop over the
    [k] enabled fields before it did not fail. If its value cannot be read
    or the sink refuses its value list, [curl_stats_dispatch] returns that
    negative status (-1 for a value that cannot be read); the value lists
    of the [k] fields before it have been taken by the sink and stay so,
    and nothing is emitted for [spec] or any field after it. *)
Theorem C4_first_failure_stops_the_dispatch
  (hostname plugin plugin_instance : option string) (log : sink_log)
  (k : nat) (spec : field_spec) (vl1 : value_list_t) (log1 : sink_log) :
  let vl := init_value_list DATA_MAX_NAME_LEN VALUE_LIST_INIT sstrncpy
              hostname plugin plugin_instance in
  nth_error (enabled_specs s) k = Some spec ->
  dispatch_fields DATA_MAX_NAME_LEN sstrncpy ssnprintf sink s curl
    instance_prefix (firstn k (enabled_specs s)) vl log = (0%Z, vl1, log1) ->
  (getinfo_code curl spec <> CURLE_OK \/ (sink log1 (sample_of vl spec) < 0)%Z) ->
  exists st log',
    curl_stats_dispatch DATA_MAX_NAME_LEN VALUE_LIST_INIT sstrncpy ssnprintf sink
      (Some s) (Some curl) hostname plugin plugin_instance instance_prefix log
    = (st, log') /\
    (st < 0)%Z /\
    st = (if (getinfo_code curl spec =? CURLE_OK)%Z
          then sink log1 (sample_of vl spec) else (-1)%Z) /\
    log' = (if (getinfo_code curl spec =? CURLE_OK)%Z
            then log1 ++ [(sample_of vl spec, st)] else log1) /\
    emitted log1 =
      emitted log ++ map (fun f => sample_of vl f) (firstn k (enabled_specs s)) /\
    emitted log' = emitted log1.
Proof.
  intros vl Hk Hpre Hfail.
  destruct (nth_error_split _ _ Hk) as (l1 & l2 & Hsplit & Hlen).
  assert (Hl1 : firstn k (enabled_specs s) = l1).
  { rewrite Hsplit, <- Hlen, firstn_app, Nat.sub_diag, firstn_all. cbn.
    apply app_nil_r. }
  rewrite Hl1 in *.
  assert (Hen : field_enabled s (offset spec) = true).
  { apply nth_error_In in Hk. unfold enabled_specs in Hk.
    apply filter_In in Hk. apply Hk. }
  destruct (dispatch_fields_ok l1 vl log _ _ _ Hpre (Z.le_refl 0))
    as (_ & Hm & evs & Hlog1 & Hmap & Hacc & _).
  rewrite filter_enabled_specs in Hmap
    by (intros f Hf; rewrite Hsplit; apply in_or_app; now left).
  assert (Hsmp : sample_of vl1 spec = sample_of vl spec)
    by (apply sample_meta; exact Hm).
  assert (Hem : emitted log1 = emitted log ++ map (fun f => sample_of vl f) l1).
  { now rewrite Hlog1, emitted_app, (emitted_accepted _ Hacc), Hmap. }
  unfold curl_stats_dispatch. fold vl.
  rewrite dispatch_fields_filter. fold (enabled_specs s).
  rewrite Hsplit, dispatch_fields_app, Hpre. cbn [Z.ltb Z.compare dispatch_fields].
  rewrite (dispatch_field_enabled spec vl1 log1 Hen), Hsmp.
  destruct (getinfo_code curl spec =? CURLE_OK)%Z eqn:Ec.
  - assert (Hs : (sink log1 (sample_of vl spec) < 0)%Z).
    { destruct Hfail as [Hc|Hs]; [|exact Hs]. apply Z.eqb_eq in Ec. contradiction. }
    pose proof Hs as Hs'. apply Z.ltb_lt in Hs'. rewrite Hs'.
    eexists. eexists. split; [reflexivity|].
    split; [exact Hs|]. split; [reflexivity|]. split; [reflexivity|].
    split; [exact Hem|].
    now rewrite emitted_app, (emitted_refused _ _ Hs), app_nil_r.
  - cbn [Z.ltb Z.compare]. eexists. eexists. split; [reflexivity|].
    split; [lia|]. split; [reflexivity|]. split; [reflexivity|].
    split; [exact Hem | reflexivity].
Qed.

(** C8. When [curl_stats_dispatch] returns 0, the value lists it handed to
    the sink are those of the enabled entries in the order of the table
    (their type instances are made of the names of the enabled entries, in
    that order), and each is taken; a struct that enables the same fields
    gives the same result, and so does the struct of a configuration block
    with the same entries in another order, which is the same struct. *)
Theorem C8_value_lists_follow_the_table
  (hostname plugin plugin_instance : option string) (log log' : sink_log) :
  curl_stats_dispatch DATA_MAX_NAME_LEN VALUE_LIST_INIT sstrncpy ssnprintf sink
      (Some s) (Some curl) hostname plugin plugin_instance instance_prefix log
  = (0%Z, log') ->
  let vl := init_value_list DATA_MAX_NAME_LEN VALUE_LIST_INIT sstrncpy
              hostname plugin plugin_instance in
  (exists evs, log' = log ++ evs /\
     map fst evs = map (fun spec => sample_of vl spec) (enabled_specs s) /\
     map (fun e => vl_type_instance (fst e)) evs =
       map (fun spec => ssnprintf DATA_MAX_NAME_LEN
                          (string_or_empty instance_prefix) (name spec))
           (enabled_specs s) /\
     Forall (fun e => (0 <= snd e)%Z) evs) /\
  emitted log' =
    emitted log ++ map (fun spec => sample_of vl spec) (enabled_specs s) /\
  (forall s',
     (forall spec, In spec field_specs ->
        field_enabled s' (offset spec) = field_enabled s (offset spec)) ->
     curl_stats_dispatch DATA_MAX_NAME_LEN VALUE_LIST_INIT sstrncpy ssnprintf sink
       (Some s') (Some curl) hostname plugin plugin_instance instance_prefix log
     = (0%Z, log')) /\
  (forall IS_TRUE ci ci',
     curl_stats_from_config IS_TRUE (Some ci) = (Some s, []) ->
     Permutation (children ci) (children ci') ->
     curl_stats_from_config IS_TRUE (Some ci') = (Some s, [])).
Proof.
  intros H vl. pose proof H as H'. unfold curl_stats_dispatch in H'. fold vl in H'.
  destruct (loop field_specs vl log) as [[st vl1] log1] eqn:E.
  inversion H'; subst st log1. clear H'.
  destruct (dispatch_fields_ok field_specs vl log _ _ _ E (Z.le_refl 0))
    as (_ & _ & evs & -> & Hmap & Hacc & _).
  fold (enabled_specs s) in Hmap.
  split.
  { exists evs. split; [reflexivity|]. split; [exact Hmap|]. split; [|exact Hacc].
    rewrite <- (map_map fst vl_type_instance), Hmap, map_map. reflexivity. }
  split.
  - now rewrite emitted_app, (emitted_accepted _ Hacc), Hmap.
  - split.
    + intros s' Hs'. rewrite <- H. f_equal. f_equal. apply curl_stats_ext.
      intros o Ho. destruct (nth_field_specs o Ho) as [Hin Hoff].
      rewrite <- Hoff. now apply Hs'.
    + intros IS_TRUE ci ci'. apply curl_stats_from_config_perm.
Qed.

(** C9 (as amended). With a struct and a NULL handle
    [curl_stats_dispatch] returns -1 and hands nothing to the sink; with a
    NULL struct it returns 0 and hands nothing to the sink, whatever the
    handle. The status -1 is also what a value that cannot be read gives:
    when this happens for the first enabled field, the result is the one
    of a NULL handle. *)
Theorem C9_null_handle_and_null_struct
  (hostname plugin plugin_instance : option string) (log : sink_log) :
  curl_stats_dispatch DATA_MAX_NAME_LEN VALUE_LIST_INIT sstrncpy ssnprintf sink
    (Some s) None hostname plugin plugin_instance instance_prefix log
  = ((-1)%Z, log) /\
  (forall curl',
     curl_stats_dispatch DATA_MAX_NAME_LEN VALUE_LIST_INIT sstrncpy ssnprintf sink
       None curl' hostname plugin plugin_instance instance_prefix log
     = (0%Z, log)) /\
  (forall spec,
     hd_error (enabled_specs s) = Some spec ->
     getinfo_code curl spec <> CURLE_OK ->
     curl_stats_dispatch DATA_MAX_NAME_LEN VALUE_LIST_INIT sstrncpy ssnprintf sink
      (Some s) (Some curl) hostname plugin plugin_instance instance_prefix log
     = ((-1)%Z, log)).
Proof.
  split; [reflexivity|]. split; [reflexivity|].
  intros spec Hhd Hc. unfold curl_stats_dispatch.
  rewrite dispatch_fields_filter. fold (enabled_specs s).
  assert (Hen : field_enabled s (offset spec) = true).
  { destruct (enabled_specs s) as [|f l] eqn:E; [discriminate Hhd|].
    inversion Hhd; subst f.
    assert (Hin : In spec (enabled_specs s)) by (rewrite E; now left).
    unfold enabled_specs in Hin. apply filter_In in Hin. apply Hin. }
  destruct (enabled_specs s) as [|f l]; [discriminate Hhd|].
  inversion Hhd; subst f. cbn [dispatch_fields].
  rewrite (dispatch_field_enabled spec _ log Hen).
  apply Z.eqb_neq in Hc. rewrite Hc. reflexivity.
Qed.

(** C10. The struct is tested before the handle: with a NULL struct the
    call returns 0 and hands nothing to the sink even when the handle is
    NULL too, so a NULL handle gives -1 exactly when the struct is not
    NULL. *)
Theorem C10_null_struct_is_tested_first
  (hostname plugin plugin_instance : option string) (log : sink_log) :
  (forall curl',
     curl_stats_dispatch DATA_MAX_NAME_LEN VALUE_LIST_INIT sstrncpy ssnprintf sink
       None curl' hostname plugin plugin_instance instance_prefix log
     = (0%Z, log)) /\
  (forall s',
     curl_stats_dispatch DATA_MAX_NAME_LEN VALUE_LIST_INIT sstrncpy ssnprintf sink
       s' None hostname plugin plugin_instance instance_prefix log
     = ((-1)%Z, log)
     <-> s' <> None).
Proof.
  split; [reflexivity|]. intros [s'|]; cbn; split; intros H;
    first [reflexivity | discriminate H | congruence].
Qed.

(** C6. When the loop reaches an enabled entry whose dispatcher is
    [dispatch_speed] and the raw value [v] can be read, one value list goes
    to the sink and its single value is the binary64 product of [v] and
    8.0. For a finite [v] whose product does not overflow to an infinity,
    that is exactly 8 times [v] as a rational number. *)
Theorem C6_speed_is_dispatched_times_8 (spec : field_spec) (vl : value_list_t)
  (log : sink_log) (v : double) :
  field_enabled s (offset spec) = true ->
  dispatcher spec = fn_dispatch_speed ->
  curl_easy_getinfo_double curl (info spec) = (CURLE_OK, v) ->
  exists status smp,
    dispatch_field DATA_MAX_NAME_LEN sstrncpy ssnprintf sink s curl
      instance_prefix spec vl log
    = (status, smp, log ++ [(smp, status)]) /\
    vl_values smp = [SFmul prec emax v (double_of_long 8)] /\
    (SF2Q (double_of_long 8) == 8)%Q /\
    (valid_binary prec emax v = true ->
     is_finite (SFmul prec emax v (double_of_long 8)) = true ->
     (SF2Q (SFmul prec emax v (double_of_long 8)) == 8 * SF2Q v)%Q).
Proof.
  intros Hen Hd Hv. rewrite (dispatch_field_enabled spec vl log Hen).
  unfold getinfo_code, converted_value. rewrite Hd, Hv. cbn [fst snd].
  rewrite Z.eqb_refl. eexists. eexists. split; [reflexivity|].
  split; [reflexivity|]. split; [reflexivity|]. apply double_times_8_exact.
Qed.

(** C7. When the loop reaches an enabled entry whose dispatcher is
    [dispatch_size] and the raw [long] can be read, one value list goes to
    the sink and its single value is the [long] converted to [double]
    (rounded to nearest, ties to even). The conversion is exact on every
    [long] a [double] can hold, among them all with magnitude up to
    2^53. *)
Theorem C7_size_is_dispatched_as_double (spec : field_spec) (vl : value_list_t)
  (log : sink_log) (raw : Z) :
  field_enabled s (offset spec) = true ->
  dispatcher spec = fn_dispatch_size ->
  curl_easy_getinfo_long curl (info spec) = (CURLE_OK, raw) ->
  exists status smp,
    dispatch_field DATA_MAX_NAME_LEN sstrncpy ssnprintf sink s curl
      instance_prefix spec vl log
    = (status, smp, log ++ [(smp, status)]) /\
    vl_values smp = [double_of_long raw] /\
    ((LONG_MIN <= raw <= LONG_MAX)%Z -> representable raw ->
     is_finite (double_of_long raw) = true /\
     (SF2Q (double_of_long raw) == inject_Z raw)%Q) /\
    ((Z.abs raw <= 2 ^ 53)%Z -> representable raw).
Proof.
  intros Hen Hd Hv. rewrite (dispatch_field_enabled spec vl log Hen).
  unfold getinfo_code, converted_value. rewrite Hd, Hv. cbn [fst snd].
  rewrite Z.eqb_refl. eexists. eexists. split; [reflexivity|].
  split; [reflexivity|]. split.
  - apply double_of_long_exact.
  - apply small_representable.
Qed.

End DispatcherProperties.

(** * Further properties *)

(** ** Keys and names *)

Lemma tolower_idem (c : ascii) : tolower (tolower c) = tolower c.
Proof. destruct c as [[] [] [] [] [] [] [] []]; reflexivity. Qed.

Lemma strcasecmp_lower_l (a b : string) :
  strcasecmp (str_lower a) b = strcasecmp a b.
Proof.
  revert b. induction a as [|c a IH]; intros [|cb b]; cbn; try reflexivity.
  - now rewrite tolower_idem.
  - rewrite tolower_idem, IH. reflexivity.
Qed.

Lemma strcasecmp_lower_r (a b : string) :
  strcasecmp a (str_lower b) = strcasecmp a b.
Proof.
  revert b. induction a as [|c a IH]; intros [|cb b]; cbn; try reflexivity.
  - now rewrite tolower_idem.
  - rewrite tolower_idem, IH. reflexivity.
Qed.

Lemma strcasecmp_refl (a : string) : strcasecmp a a = 0%Z.
Proof.
  induction a as [|c a IH]; cbn; [reflexivity|].
  now rewrite Z.sub_diag.
Qed.

Lemma strcasecmp_same_lower (a b : string) :
  str_lower a = str_lower b -> strcasecmp a b = 0%Z.
Proof.
  intros H. rewrite <- strcasecmp_lower_l, <- strcasecmp_lower_r, H.
  apply strcasecmp_refl.
Qed.

Lemma strcasecmp_zero_lower (a b : string) :
  nul_free a = true -> nul_free b = true ->
  strcasecmp a b = 0%Z -> str_lower a = str_lower b.
Proof.
  intros Ha Hb H. apply (strcasecmp_common a a b Ha Hb); [|exact H].
  apply strcasecmp_refl.
Qed.

Lemma str_lower_length (a : string) :
  String.length (str_lower a) = String.length a.
Proof. induction a as [|c a IH]; cbn; [reflexivity | now rewrite IH]. Qed.

Lemma field_specs_names_lower (spec : field_spec) :
  In spec field_specs -> str_lower (name spec) = name spec.
Proof.
  intros H. cbv [field_specs In] in H.
  repeat (destruct H as [H|H]; [subst spec; reflexivity|]). destruct H.
Qed.

Lemma field_specs_name_nul_free (spec : field_spec) :
  In spec field_specs -> nul_free (name spec) = true.
Proof.
  pose proof field_specs_names_nul_free as N. rewrite forallb_forall in N.
  exact (N spec).
Qed.

Lemma find_field_lower (k : string) (specs : list field_spec) (n : nat) :
  find_field (str_lower k) specs n = find_field k specs n.
Proof.
  revert n. induction specs as [|spec specs IH]; intros n; cbn; [reflexivity|].
  now rewrite strcasecmp_lower_l, IH.
Qed.

Lemma key_matches_known (c : oconfig_item_t) (spec : field_spec) :
  In spec field_specs -> key_matches c spec = true -> known_key c = true.
Proof.
  intros Hin Hm. destruct (known_key c) eqn:E; [reflexivity|].
  rewrite (unknown_key_no_match c spec E Hin) in Hm. discriminate Hm.
Qed.

(** X1. A key selects a field of the table exactly when it equals the name
    of the field up to the case of its letters: the search then stops at the
    index of the field, which is its offset, and key and name have the same
    length, so neither a prefix nor a longer key selects the field. *)
Theorem X1_key_selects_the_field_it_spells (c : oconfig_item_t) (spec : field_spec) :
  In spec field_specs -> nul_free (key c) = true ->
  (key_matches c spec = true <-> str_lower (key c) = name spec) /\
  (key_matches c spec = true ->
   find_field (key c) field_specs 0 = offset spec /\
   String.length (key c) = String.length (name spec)).
Proof.
  intros Hin Hnul.
  assert (Hiff : key_matches c spec = true <-> str_lower (key c) = name spec).
  { unfold key_matches. rewrite Z.eqb_eq. split; intros H.
    - rewrite <- (field_specs_names_lower spec Hin).
      apply strcasecmp_zero_lower;
        [exact Hnul | now apply field_specs_name_nul_free | exact H].
    - apply strcasecmp_same_lower.
      now rewrite (field_specs_names_lower spec Hin). }
  split; [exact Hiff|]. intros Hm. split.
  - pose proof (key_matches_find c spec Hin (key_matches_known c spec Hin Hm)) as F.
    rewrite Hm in F. symmetry in F. now apply Nat.eqb_eq in F.
  - apply Hiff in Hm. now rewrite <- Hm, str_lower_length.
Qed.

(** ** The selector, further *)

Section SelectorFurther.

Variable IS_TRUE : string -> bool.

Lemma from_config_child_same_entry (c c' : oconfig_item_t) (s : curl_stats_t) :
  same_entry c c' ->
  match from_config_child IS_TRUE c s, from_config_child IS_TRUE c' s with
  | inr s1, inr s2 => s1 = s2
  | inl (UnknownField k), inl (UnknownField k') => k = key c /\ k' = key c'
  | inl (InvalidValue k), inl (InvalidValue k') => k = key c /\ k' = key c'
  | _, _ => False
  end.
Proof.
  intros [Hk Hv]. unfold from_config_child, values_num, values_0.
  rewrite <- (find_field_lower (key c)), Hk, find_field_lower, Hv.
  destruct (STATIC_ARRAY_SIZE field_specs <=? find_field (key c') field_specs 0);
    [auto|].
  destruct (negb (List.length (values c') =? 1)
            || negb (is_string_or_boolean
                       (hd (OCONFIG_TYPE_NUMBER (S754_zero false)) (values c'))));
    [auto|].
  destruct (is_true_value IS_TRUE
              (hd (OCONFIG_TYPE_NUMBER (S754_zero false)) (values c')));
    reflexivity.
Qed.

Lemma from_config_children_same_entries (cs cs' : list oconfig_item_t)
  (s : curl_stats_t) :
  Forall2 same_entry cs cs' ->
  match from_config_children IS_TRUE cs s, from_config_children IS_TRUE cs' s with
  | inr s1, inr s2 => s1 = s2
  | inl e, inl e' => is_unknown_field e = is_unknown_field e'
  | _, _ => False
  end.
Proof.
  intros H. revert s. induction H as [|c c' cs cs' Hc _ IH]; intros s;
    cbn [from_config_children]; [reflexivity|].
  pose proof (from_config_child_same_entry c c' s Hc) as Hs.
  destruct (from_config_child IS_TRUE c s) as [[k|k]|s1];
    destruct (from_config_child IS_TRUE c' s) as [[k'|k']|s2];
    try contradiction; try reflexivity.
  subst s2. apply IH.
Qed.

(** X2. [curl_stats_from_config] reads of a block only the keys of its
    entries, up to the case of their letters, and their values: two blocks
    whose entries agree on these, whatever their own key and values and
    whatever the entries have below them, give the same struct or fail
    alike, each with one message of the same kind. *)
Theorem X2_only_keys_up_to_case_and_values_are_read (ci ci' : oconfig_item_t) :
  Forall2 same_entry (children ci) (children ci') ->
  fst (curl_stats_from_config IS_TRUE (Some ci))
  = fst (curl_stats_from_config IS_TRUE (Some ci')) /\
  map is_unknown_field (snd (curl_stats_from_config IS_TRUE (Some ci)))
  = map is_unknown_field (snd (curl_stats_from_config IS_TRUE (Some ci'))).
Proof.
  intros H. unfold curl_stats_from_config.
  pose proof (from_config_children_same_entries _ _ calloc_curl_stats H) as Hs.
  destruct (from_config_children IS_TRUE (children ci) calloc_curl_stats) as [e|s1];
    destruct (from_config_children IS_TRUE (children ci') calloc_curl_stats)
      as [e'|s2]; try contradiction.
  - cbn. now rewrite Hs.
  - subst s2. split; reflexivity.
Qed.

Lemma from_config_child_inr (c : oconfig_item_t) (s s' : curl_stats_t) :
  from_config_child IS_TRUE c s = inr s' ->
  valid_child c = true /\
  s' = (if true_child IS_TRUE c
        then enable_field s (find_field (key c) field_specs 0) else s).
Proof.
  intros H. destruct (valid_child c) eqn:V.
  - rewrite (from_config_child_valid IS_TRUE c s V) in H.
    inversion H. split; reflexivity.
  - destruct (from_config_children_fails IS_TRUE [] [] c s V) as [e He].
    cbn in He. rewrite H in He. discriminate He.
Qed.

Lemma from_config_children_keeps (cs : list oconfig_item_t)
  (s0 s : curl_stats_t) (o : nat) :
  from_config_children IS_TRUE cs s0 = inr s ->
  field_enabled s0 o = true -> field_enabled s o = true.
Proof.
  revert s0. induction cs as [|c cs IH]; intros s0 H Ho;
    cbn [from_config_children] in H.
  - inversion H; subst. exact Ho.
  - destruct (from_config_child IS_TRUE c s0) as [e|s1] eqn:E; [discriminate H|].
    destruct (from_config_child_inr c s0 s1 E) as [V Hs1].
    apply (IH s1 H). rewrite Hs1.
    destruct (true_child IS_TRUE c); [|exact Ho].
    unfold valid_child in V. apply andb_prop in V. destruct V as [Hk _].
    rewrite field_enabled_enable_field by (apply Nat.ltb_lt; exact Hk).
    rewrite Ho. apply orb_true_r.
Qed.

Lemma from_config_children_none_true (cs : list oconfig_item_t)
  (s0 s : curl_stats_t) :
  from_config_children IS_TRUE cs s0 = inr s ->
  forallb (fun c => negb (true_child IS_TRUE c)) cs = true -> s = s0.
Proof.
  revert s0. induction cs as [|c cs IH]; intros s0 H Hf;
    cbn [from_config_children] in H.
  - now inversion H.
  - destruct (from_config_child IS_TRUE c s0) as [e|s1] eqn:E; [discriminate H|].
    destruct (from_config_child_inr c s0 s1 E) as [_ Hs1].
    cbn [forallb] in Hf. apply andb_prop in Hf. destruct Hf as [Hc Hcs].
    apply negb_true_iff in Hc. rewrite Hc in Hs1. subst s1. now apply IH.
Qed.

(** X3. The loop over the entries never clears a flag: from whatever struct
    it starts, a field enabled before is enabled after, and entries none of
    which carries a true value leave the struct as it is. *)
Theorem X3_entries_never_disable_a_field (cs : list oconfig_item_t)
  (s0 s : curl_stats_t) :
  from_config_children IS_TRUE cs s0 = inr s ->
  (forall spec, In spec field_specs ->
     field_enabled s0 (offset spec) = true -> field_enabled s (offset spec) = true) /\
  (forallb (fun c => negb (true_child IS_TRUE c)) cs = true -> s = s0).
Proof.
  intros H. split.
  - intros spec _. now apply (from_config_children_keeps cs).
  - now apply from_config_children_none_true.
Qed.

Lemma some_value_true_app (cs1 cs2 : list oconfig_item_t) (spec : field_spec) :
  some_value_true IS_TRUE (cs1 ++ cs2) spec
  = some_value_true IS_TRUE cs1 spec || some_value_true IS_TRUE cs2 spec.
Proof. apply existsb_app. Qed.

Lemma curl_stats_from_config_some (ci : oconfig_item_t) (s : curl_stats_t) :
  curl_stats_from_config IS_TRUE (Some ci) = (Some s, []) ->
  forallb valid_child (children ci) = true /\
  forall spec, In spec field_specs ->
    field_enabled s (offset spec) = some_value_true IS_TRUE (children ci) spec.
Proof.
  unfold curl_stats_from_config. intros H.
  destruct (from_config_children IS_TRUE (children ci) calloc_curl_stats)
    as [e|s1] eqn:E; [discriminate H|].
  inversion H; subst s1.
  pose proof (from_config_children_inr_valid IS_TRUE _ _ _ E) as V.
  split; [exact V|].
  destruct (from_config_children_valid IS_TRUE _ calloc_curl_stats V)
    as (s2 & Hs2 & Hen).
  rewrite E in Hs2. inversion Hs2; subst s2.
  intros spec Hin. now rewrite (Hen spec Hin), field_enabled_calloc.
Qed.

(** X4. Blocks compose by union: when two blocks are accepted, the block
    made of the entries of the first followed by those of the second is
    accepted, and it enables a field of the table exactly when one of the
    two does. *)
Theorem X4_concatenated_blocks_enable_the_union (ci1 ci2 ci12 : oconfig_item_t)
  (s1 s2 : curl_stats_t) :
  children ci12 = children ci1 ++ children ci2 ->
  curl_stats_from_config IS_TRUE (Some ci1) = (Some s1, []) ->
  curl_stats_from_config IS_TRUE (Some ci2) = (Some s2, []) ->
  exists s12,
    curl_stats_from_config IS_TRUE (Some ci12) = (Some s12, []) /\
    forall spec, In spec field_specs ->
      field_enabled s12 (offset spec)
      = field_enabled s1 (offset spec) || field_enabled s2 (offset spec).
Proof.
  intros Hc H1 H2.
  destruct (curl_stats_from_config_some ci1 s1 H1) as [V1 E1].
  destruct (curl_stats_from_config_some ci2 s2 H2) as [V2 E2].
  assert (V : forallb valid_child (children ci12) = true).
  { rewrite Hc, forallb_app, V1, V2. reflexivity. }
  destruct (from_config_children_valid IS_TRUE _ calloc_curl_stats V)
    as (s12 & Hs12 & Hen).
  exists s12. split.
  - unfold curl_stats_from_config. now rewrite Hs12.
  - intros spec Hin.
    rewrite (Hen _ Hin), (E1 _ Hin), (E2 _ Hin), field_enabled_calloc, Hc.
    cbn [orb]. apply some_value_true_app.
Qed.

Lemma children_config_of (s : curl_stats_t) :
  children (config_of s)
  = map (fun spec => entry (name spec) (OCONFIG_TYPE_BOOLEAN true)) (enabled_specs s).
Proof. reflexivity. Qed.

Lemma key_matches_own_name (f : field_spec) :
  key_matches (entry (name f) (OCONFIG_TYPE_BOOLEAN true)) f = true.
Proof.
  unfold key_matches, entry. cbn [key]. now rewrite strcasecmp_refl.
Qed.

(** X5. Every selection can be asked for: the block that lists the names of
    the fields enabled in a struct, each with the value true, is accepted
    and gives that struct back. *)
Theorem X5_config_of_gives_the_struct_back (s : curl_stats_t) :
  curl_stats_from_config IS_TRUE (Some (config_of s)) = (Some s, []).
Proof.
  assert (V : forallb valid_child (children (config_of s)) = true).
  { apply forallb_forall. intros c Hc. rewrite children_config_of in Hc.
    apply in_map_iff in Hc.
    destruct Hc as (f & <- & Hf). unfold enabled_specs in Hf.
    apply filter_In in Hf. destruct Hf as [Hf _].
    unfold valid_child.
    rewrite (key_matches_known _ f Hf (key_matches_own_name f)). reflexivity. }
  destruct (from_config_children_valid IS_TRUE _ calloc_curl_stats V)
    as (s' & Hs' & Hen).
  unfold curl_stats_from_config. rewrite Hs'. f_equal. f_equal.
  apply curl_stats_ext. intros o Ho.
  destruct (nth_field_specs o Ho) as [Hin Hoff]. rewrite <- Hoff.
  set (spec := nth o field_specs null_spec) in *.
  rewrite (Hen spec Hin), field_enabled_calloc. cbn [orb].
  apply eq_true_iff_eq. rewrite some_value_true_iff. split.
  - intros (c & Hc & Hk & _). rewrite children_config_of in Hc.
    apply in_map_iff in Hc.
    destruct Hc as (f & <- & Hf). unfold enabled_specs in Hf.
    apply filter_In in Hf. destruct Hf as [Hf Hen_f].
    now rewrite (key_matches_unique _ spec f Hin Hf Hk (key_matches_own_name f)).
  - intros Hsp. exists (entry (name spec) (OCONFIG_TYPE_BOOLEAN true)).
    split; [|split; [apply key_matches_own_name | reflexivity]].
    rewrite children_config_of. apply in_map_iff. exists spec.
    split; [reflexivity|].
    unfold enabled_specs. apply filter_In. now split.
Qed.

End SelectorFurther.

(** ** The flags of the struct *)

(** X6. The table indexes the struct: the offset of every entry lies inside
    the struct and no two entries share one. So [enable_field] at the offset
    of an entry changes what [field_enabled] answers for that entry only,
    from whatever it was to true; enabling a field twice is enabling it
    once, and the order in which two fields are enabled does not matter. *)
Theorem X6_enable_field_sets_the_flag_of_one_entry (s : curl_stats_t)
  (f g : field_spec) :
  In f field_specs -> In g field_specs ->
  offset f < List.length (bytes_of s) /\
  (offset f = offset g -> f = g) /\
  field_enabled (enable_field s (offset f)) (offset f) = true /\
  (f <> g -> field_enabled (enable_field s (offset f)) (offset g)
             = field_enabled s (offset g)) /\
  enable_field (enable_field s (offset f)) (offset f) = enable_field s (offset f) /\
  enable_field (enable_field s (offset f)) (offset g)
  = enable_field (enable_field s (offset g)) (offset f).
Proof.
  intros Hf Hg.
  destruct (In_field_specs_offset f Hf) as [Of Nf].
  destruct (In_field_specs_offset g Hg) as [Og Ng].
  assert (Inj : offset f = offset g -> f = g).
  { intros E. rewrite <- Nf, <- Ng, E. reflexivity. }
  split; [destruct s; exact Of|]. split; [exact Inj|]. split; [|split; [|split]].
  - rewrite field_enabled_enable_field by exact Of.
    now rewrite Nat.eqb_refl.
  - intros Hne. rewrite field_enabled_enable_field by exact Of.
    destruct (Nat.eqb_spec (offset f) (offset g)) as [E|_]; [|reflexivity].
    destruct (Hne (Inj E)).
  - apply curl_stats_ext. intros o _.
    rewrite !field_enabled_enable_field by assumption.
    destruct (offset f =? o); reflexivity.
  - apply curl_stats_ext. intros o _.
    rewrite !field_enabled_enable_field by assumption.
    destruct (offset f =? o), (offset g =? o); reflexivity.
Qed.

(** ** The dispatcher, further *)

Section LoopFurther.

Variable DATA_MAX_NAME_LEN : nat.
Variable VALUE_LIST_INIT : value_list_t.
Variable sstrncpy : string -> nat -> string.
Variable ssnprintf : nat -> string -> string -> string.
Variable sink : sink_log -> value_list_t -> Z.

Variable s : curl_stats_t.
Variable curl : CURL.
Variable instance_prefix : option string.

Local Abbreviation enabled := (fun spec => field_enabled s (offset spec)).
Local Abbreviation readable :=
  (fun spec => (getinfo_code curl spec =? CURLE_OK)%Z).
Local Abbreviation prefix := (string_or_empty instance_prefix).
Local Abbreviation type_of spec := (sstrncpy (type spec) DATA_MAX_NAME_LEN).
Local Abbreviation type_instance_of spec :=
  (ssnprintf DATA_MAX_NAME_LEN prefix (name spec)).
Local Abbreviation sample_of vl spec :=
  (sample vl (type_of spec) (type_instance_of spec) (converted_value curl spec)).
Local Abbreviation step :=
  (dispatch_field DATA_MAX_NAME_LEN sstrncpy ssnprintf sink s curl instance_prefix).
Local Abbreviation loop :=
  (dispatch_fields DATA_MAX_NAME_LEN sstrncpy ssnprintf sink s curl instance_prefix).
Local Abbreviation init :=
  (init_value_list DATA_MAX_NAME_LEN VALUE_LIST_INIT sstrncpy).
Local Abbreviation dispatch :=
  (curl_stats_dispatch DATA_MAX_NAME_LEN VALUE_LIST_INIT sstrncpy ssnprintf sink).
Local Abbreviation accepted := (fun e : value_list_t * Z => (0 <= snd e)%Z).

(** The shape of every run of the loop: what it appends to the history of
    the sink, and how the status relates to it. *)
Lemma dispatch_fields_shape (specs : list field_spec) (vl : value_list_t)
  (log : sink_log) (st : Z) (vl' : value_list_t) (log' : sink_log) :
  loop specs vl log = (st, vl', log') ->
  exists evs, log' = log ++ evs /\
    List.length evs <= List.length (filter enabled specs) /\
    (((st = 0 \/ st = -1)%Z /\ Forall accepted evs) \/
     ((st < 0)%Z /\ exists evs0 vl0,
        evs = evs0 ++ [(vl0, st)] /\ Forall accepted evs0)).
Proof.
  revert vl log. induction specs as [|spec specs IH]; intros vl log H;
    cbn [dispatch_fields filter] in *.
  - inversion H; subst. exists []. rewrite app_nil_r.
    split; [reflexivity|]. split; [cbn; lia|]. left. split; [now left | constructor].
  - destruct (field_enabled s (offset spec)) eqn:En.
    + rewrite (dispatch_field_enabled _ _ _ sink s curl instance_prefix spec vl log En)
        in H.
      destruct (getinfo_code curl spec =? CURLE_OK)%Z.
      * destruct (sink log (sample_of vl spec) <? 0)%Z eqn:Es.
        { inversion H; subst. exists [(sample_of vl spec, sink log (sample_of vl spec))].
          split; [reflexivity|]. split; [cbn; lia|]. right.
          split; [now apply Z.ltb_lt|]. exists [], (sample_of vl spec).
          split; [reflexivity | constructor]. }
        apply Z.ltb_ge in Es.
        destruct (IH _ _ H) as (evs & -> & Hlen & Hst).
        exists ((sample_of vl spec, sink log (sample_of vl spec)) :: evs).
        split; [now rewrite <- app_assoc|]. split; [cbn [List.length]; lia|].
        destruct Hst as [[Hst Ha]|[Hst (evs0 & vl0 & -> & Ha)]].
        -- left. split; [exact Hst|]. constructor; [exact Es | exact Ha].
        -- right. split; [exact Hst|].
           exists ((sample_of vl spec, sink log (sample_of vl spec)) :: evs0), vl0.
           split; [reflexivity|]. constructor; [exact Es | exact Ha].
      * cbn in H. inversion H; subst. exists []. rewrite app_nil_r.
        split; [reflexivity|]. split; [cbn; lia|]. left.
        split; [now right | constructor].
    + rewrite (dispatch_field_disabled _ _ _ sink s curl instance_prefix spec vl log En)
        in H. cbn in H. apply (IH _ _ H).
Qed.

Lemma enabled_specs_length : List.length (enabled_specs s) <= 17.
Proof.
  unfold enabled_specs.
  etransitivity; [apply filter_length_le|]. apply Nat.eq_le_incl. reflexivity.
Qed.

(** With a sink that never fails the status is decided by the handle. *)
Lemma dispatch_fields_never_failing_sink (specs : list field_spec)
  (vl : value_list_t) (log : sink_log) :
  (forall l v, (0 <= sink l v)%Z) ->
  fst (fst (loop specs vl log))
  = if forallb readable (filter enabled specs) then 0%Z else (-1)%Z.
Proof.
  intros Hsink. revert vl log. induction specs as [|spec specs IH]; intros vl log;
    cbn [dispatch_fields filter]; [reflexivity|].
  destruct (field_enabled s (offset spec)) eqn:En.
  - rewrite (dispatch_field_enabled _ _ _ sink s curl instance_prefix spec vl log En).
    cbn [forallb].
    destruct (getinfo_code curl spec =? CURLE_OK)%Z; cbn [andb].
    + destruct (sink log (sample_of vl spec) <? 0)%Z eqn:Es; [|apply IH].
      apply Z.ltb_lt in Es. pose proof (Hsink log (sample_of vl spec)). lia.
    + reflexivity.
  - rewrite (dispatch_field_disabled _ _ _ sink s curl instance_prefix spec vl log En).
    cbn. apply IH.
Qed.

(** X7. With a sink that never answers a negative status,
    [curl_stats_dispatch] returns 0 exactly when the value of every enabled
    field can be read from the handle, and -1 otherwise. *)
Theorem X7_success_is_decided_by_the_enabled_fields
  (hostname plugin plugin_instance : option string) (log : sink_log) :
  (forall l v, (0 <= sink l v)%Z) ->
  fst (curl_stats_dispatch DATA_MAX_NAME_LEN VALUE_LIST_INIT sstrncpy ssnprintf
         sink (Some s) (Some curl) hostname plugin plugin_instance
         instance_prefix log)
  = if forallb (fun spec => (getinfo_code curl spec =? CURLE_OK)%Z) (enabled_specs s)
    then 0%Z else (-1)%Z.
Proof.
  intros Hsink. cbn [curl_stats_dispatch].
  pose proof (dispatch_fields_never_failing_sink field_specs
                (init hostname plugin plugin_instance) log Hsink) as H.
  destruct (loop field_specs (init hostname plugin plugin_instance) log)
    as [[st vl'] log'].
  exact H.
Qed.

Lemma call_dispatcher_same_answer (curl' : CURL) (spec : field_spec)
  (vl : value_list_t) (log : sink_log) :
  same_answer curl curl' spec ->
  call_dispatcher sink (dispatcher spec) curl (info spec) vl log
  = call_dispatcher sink (dispatcher spec) curl' (info spec) vl log.
Proof.
  unfold same_answer.
  destruct (dispatcher spec); cbn [call_dispatcher];
    unfold dispatch_gauge, dispatch_speed, dispatch_size; now intros ->.
Qed.

Lemma dispatch_fields_same_answer (curl' : CURL) (specs : list field_spec)
  (vl : value_list_t) (log : sink_log) :
  (forall spec, In spec specs -> field_enabled s (offset spec) = true ->
     same_answer curl curl' spec) ->
  loop specs vl log
  = dispatch_fields DATA_MAX_NAME_LEN sstrncpy ssnprintf sink s curl'
      instance_prefix specs vl log.
Proof.
  revert vl log. induction specs as [|spec specs IH]; intros vl log H;
    cbn [dispatch_fields]; [reflexivity|].
  assert (E : step spec vl log
              = dispatch_field DATA_MAX_NAME_LEN sstrncpy ssnprintf sink s curl'
                  instance_prefix spec vl log).
  { unfold dispatch_field.
    destruct (field_enabled s (offset spec)) eqn:En; [|reflexivity].
    cbn [negb]. cbv zeta. apply call_dispatcher_same_answer.
    apply H; [now left | exact En]. }
  rewrite E.
  destruct (dispatch_field DATA_MAX_NAME_LEN sstrncpy ssnprintf sink s curl'
              instance_prefix spec vl log) as [[st vl1] log1].
  destruct (st <? 0)%Z; [reflexivity|].
  apply IH. intros f Hf. apply H. now right.
Qed.

(** X8. [curl_stats_dispatch] asks the handle for the enabled fields only,
    each through the query of its dispatcher: two handles that answer these
    queries alike give the same status and the same calls of the sink,
    whatever they would answer for a disabled field. *)
Theorem X8_disabled_fields_are_never_read (curl' : CURL)
  (hostname plugin plugin_instance : option string) (log : sink_log) :
  (forall spec, In spec (enabled_specs s) -> same_answer curl curl' spec) ->
  curl_stats_dispatch DATA_MAX_NAME_LEN VALUE_LIST_INIT sstrncpy ssnprintf sink
    (Some s) (Some curl) hostname plugin plugin_instance instance_prefix log
  = curl_stats_dispatch DATA_MAX_NAME_LEN VALUE_LIST_INIT sstrncpy ssnprintf sink
      (Some s) (Some curl') hostname plugin plugin_instance instance_prefix log.
Proof.
  intros H. cbn [curl_stats_dispatch].
  rewrite (dispatch_fields_same_answer curl'); [reflexivity|].
  intros spec Hin En. apply H. unfold enabled_specs. apply filter_In. now split.
Qed.

(** Whatever the outcome, each value list handed to the sink is the one of
    an enabled entry whose value was read. *)
Lemma dispatch_fields_samples (specs : list field_spec) (vl : value_list_t)
  (log : sink_log) (st : Z) (vl' : value_list_t) (log' : sink_log) :
  loop specs vl log = (st, vl', log') ->
  meta_of vl' = meta_of vl /\
  exists evs, log' = log ++ evs /\
    Forall (fun e => exists spec, In spec specs /\
              field_enabled s (offset spec) = true /\
              getinfo_code curl spec = CURLE_OK /\
              fst e = sample_of vl spec) evs.
Proof.
  revert vl log. induction specs as [|spec specs IH]; intros vl log H;
    cbn [dispatch_fields] in *.
  - inversion H; subst. split; [reflexivity|]. exists []. rewrite app_nil_r.
    split; constructor.
  - destruct (field_enabled s (offset spec)) eqn:En.
    + rewrite (dispatch_field_enabled _ _ _ sink s curl instance_prefix spec vl log En)
        in H.
      destruct (getinfo_code curl spec =? CURLE_OK)%Z eqn:Ec.
      * apply Z.eqb_eq in Ec.
        assert (Hev : exists spec0, In spec0 (spec :: specs) /\
                        field_enabled s (offset spec0) = true /\
                        getinfo_code curl spec0 = CURLE_OK /\
                        sample_of vl spec = sample_of vl spec0).
        { exists spec. cbn [In]. auto. }
        destruct (sink log (sample_of vl spec) <? 0)%Z eqn:Es.
        { inversion H; subst. split; [reflexivity|].
          exists [(sample_of vl spec, sink log (sample_of vl spec))].
          split; [reflexivity|]. constructor; [exact Hev | constructor]. }
        destruct (IH _ _ H) as (Hm & evs & -> & Hf).
        split; [now rewrite Hm|].
        exists ((sample_of vl spec, sink log (sample_of vl spec)) :: evs).
        split; [now rewrite <- app_assoc|].
        constructor; [exact Hev|].
        eapply Forall_impl; [|exact Hf]. cbn beta.
        intros e (spec0 & Hin & He & Hc & Hs). exists spec0.
        split; [now right|]. split; [exact He|]. split; [exact Hc|]. rewrite Hs.
        apply sample_meta. reflexivity.
      * cbn in H. inversion H; subst. split; [reflexivity|].
        exists []. rewrite app_nil_r. split; constructor.
    + rewrite (dispatch_field_disabled _ _ _ sink s curl instance_prefix spec vl log En)
        in H. cbn in H.
      destruct (IH _ _ H) as (Hm & evs & -> & Hf).
      split; [exact Hm|]. exists evs. split; [reflexivity|].
      eapply Forall_impl; [|exact Hf]. cbn beta.
      intros e (spec0 & Hin & He & Hs). exists spec0. split; [now right|]. auto.
Qed.

(** X9. Every value list [curl_stats_dispatch] hands to the sink, also in a
    call that fails, carries exactly one value, the converted value of an
    enabled field that could be read, under the type and the type instance
    written for that field. Its time and interval are those of
    [VALUE_LIST_INIT]; its host, plugin and plugin instance are the copies of
    the arguments of the call, and where an argument is NULL what
    [VALUE_LIST_INIT] holds. *)
Theorem X9_every_value_list_is_the_sample_of_an_enabled_field
  (hostname plugin plugin_instance : option string) (log : sink_log) :
  exists evs,
    snd (curl_stats_dispatch DATA_MAX_NAME_LEN VALUE_LIST_INIT sstrncpy ssnprintf
           sink (Some s) (Some curl) hostname plugin plugin_instance
           instance_prefix log)
    = log ++ evs /\
    Forall (fun e =>
      vl_time (fst e) = vl_time VALUE_LIST_INIT /\
      vl_interval (fst e) = vl_interval VALUE_LIST_INIT /\
      vl_host (fst e)
      = match hostname with
        | Some h => sstrncpy h DATA_MAX_NAME_LEN
        | None => vl_host VALUE_LIST_INIT
        end /\
      vl_plugin (fst e)
      = match plugin with
        | Some p => sstrncpy p DATA_MAX_NAME_LEN
        | None => vl_plugin VALUE_LIST_INIT
        end /\
      vl_plugin_instance (fst e)
      = match plugin_instance with
        | Some p => sstrncpy p DATA_MAX_NAME_LEN
        | None => vl_plugin_instance VALUE_LIST_INIT
        end /\
      exists spec,
        In spec (enabled_specs s) /\ getinfo_code curl spec = CURLE_OK /\
        vl_type (fst e) = sstrncpy (type spec) DATA_MAX_NAME_LEN /\
        vl_type_instance (fst e)
        = ssnprintf DATA_MAX_NAME_LEN (string_or_empty instance_prefix) (name spec) /\
        vl_values (fst e) = [converted_value curl spec]) evs.
Proof.
  cbn [curl_stats_dispatch].
  destruct (loop field_specs (init hostname plugin plugin_instance) log)
    as [[st vl'] log'] eqn:E.
  destruct (dispatch_fields_samples _ _ _ _ _ _ E) as (_ & evs & -> & Hf).
  exists evs. split; [reflexivity|].
  eapply Forall_impl; [|exact Hf]. cbn beta.
  intros e (spec & Hin & En & Hc & ->).
  do 5 (split; [reflexivity|]).
  exists spec. split; [unfold enabled_specs; apply filter_In; now split|].
  split; [exact Hc|]. repeat split.
Qed.

(** What the table says of the three types that belong to one dispatcher
    each. *)
Lemma field_specs_types (spec : field_spec) :
  In spec field_specs ->
  String.length (type spec) <= 8 /\
  (type spec = "bitrate"%string -> dispatcher spec = fn_dispatch_speed) /\
  (type spec = "duration"%string -> dispatcher spec = fn_dispatch_gauge) /\
  (type spec = "count"%string -> dispatcher spec = fn_dispatch_size).
Proof.
  intros H. cbv [field_specs In] in H.
  repeat (destruct H as [H|H];
          [subst spec; cbn [type dispatcher SPEC];
           split; [cbn; lia|]; repeat split; intros E;
           first [reflexivity | discriminate E]|]).
  destruct H.
Qed.

(** X10. The type of a value list tells how its value was made. Where the
    name buffers hold 9 bytes or more and [sstrncpy] copies what fits as it
    is, every value list handed to the sink has the type of an enabled
    entry of the table, and: with the type bitrate its value is 8 times the
    [double] read from the handle, a rate in bytes made a rate in bits;
    with the type duration it is the [double] as read; with the type count
    it is the [long] read, converted to [double]. *)
Theorem X10_the_type_tells_the_conversion
  (hostname plugin plugin_instance : option string) (log : sink_log) :
  (forall src n, String.length src < n -> sstrncpy src n = src) ->
  8 < DATA_MAX_NAME_LEN ->
  exists evs,
    snd (curl_stats_dispatch DATA_MAX_NAME_LEN VALUE_LIST_INIT sstrncpy ssnprintf
           sink (Some s) (Some curl) hostname plugin plugin_instance
           instance_prefix log)
    = log ++ evs /\
    Forall (fun e => exists spec,
      In spec (enabled_specs s) /\ vl_type (fst e) = type spec /\
      (vl_type (fst e) = "bitrate"%string ->
       vl_values (fst e)
       = [double_times_8 (snd (curl_easy_getinfo_double curl (info spec)))]) /\
      (vl_type (fst e) = "duration"%string ->
       vl_values (fst e) = [snd (curl_easy_getinfo_double curl (info spec))]) /\
      (vl_type (fst e) = "count"%string ->
       vl_values (fst e)
       = [double_of_long (snd (curl_easy_getinfo_long curl (info spec)))])) evs.
Proof.
  intros Hcopy Hlen. cbn [curl_stats_dispatch].
  destruct (loop field_specs (init hostname plugin plugin_instance) log)
    as [[st vl'] log'] eqn:E.
  destruct (dispatch_fields_samples _ _ _ _ _ _ E) as (_ & evs & -> & Hf).
  exists evs. split; [reflexivity|].
  eapply Forall_impl; [|exact Hf]. cbn beta.
  intros e (spec & Hin & En & _ & ->).
  destruct (field_specs_types spec Hin) as (Hl & Hb & Hd & Hc).
  assert (Ht : vl_type (sample_of (init hostname plugin plugin_instance) spec)
               = type spec).
  { cbn [sample prepared set_values set_type_instance set_type vl_type].
    apply Hcopy. lia. }
  exists spec. split; [unfold enabled_specs; apply filter_In; now split|].
  split; [exact Ht|]. rewrite Ht.
  change (vl_values (sample_of (init hostname plugin plugin_instance) spec))
    with [converted_value curl spec].
  unfold converted_value.
  split; [|split]; intros Hty.
  - now rewrite (Hb Hty).
  - now rewrite (Hd Hty).
  - now rewrite (Hc Hty).
Qed.

End LoopFurther.

Section DispatchFurther.

Variable IS_TRUE : string -> bool.
Variable DATA_MAX_NAME_LEN : nat.
Variable VALUE_LIST_INIT : value_list_t.
Variable sstrncpy : string -> nat -> string.
Variable ssnprintf : nat -> string -> string -> string.
Variable sink : sink_log -> value_list_t -> Z.

(** X11. The status [curl_stats_dispatch] returns is never positive. It is 0,
    or -1, or the negative status of the last call of the sink; every call
    of the sink before the last returned a status that is not negative, so
    a sink that answers a positive status does not stop the loop, and its
    status is not what the caller sees. The history of the sink is only
    extended, by at most one call for each enabled field of the table. *)
Theorem X11_status_is_zero_or_the_failure
  (s : option curl_stats_t) (curl : option CURL)
  (hostname plugin plugin_instance instance_prefix : option string)
  (log : sink_log) :
  let st := fst (curl_stats_dispatch DATA_MAX_NAME_LEN VALUE_LIST_INIT sstrncpy
                   ssnprintf sink s curl hostname plugin plugin_instance
                   instance_prefix log) in
  let log' := snd (curl_stats_dispatch DATA_MAX_NAME_LEN VALUE_LIST_INIT sstrncpy
                     ssnprintf sink s curl hostname plugin plugin_instance
                     instance_prefix log) in
  (st <= 0)%Z /\
  exists evs, log' = log ++ evs /\
    List.length evs
    <= match s with Some s => List.length (enabled_specs s) | None => 0 end <= 17 /\
    (((st = 0 \/ st = -1)%Z /\ Forall (fun e => (0 <= snd e)%Z) evs) \/
     ((st < 0)%Z /\ exists evs0 vl0,
        evs = evs0 ++ [(vl0, st)] /\ Forall (fun e => (0 <= snd e)%Z) evs0)).
Proof.
  destruct s as [s|]; [destruct curl as [curl|]|]; cbn [curl_stats_dispatch fst snd].
  - destruct (dispatch_fields DATA_MAX_NAME_LEN sstrncpy ssnprintf sink s curl
                instance_prefix field_specs
                (init_value_list DATA_MAX_NAME_LEN VALUE_LIST_INIT sstrncpy
                   hostname plugin plugin_instance) log)
      as [[st vl'] log'] eqn:E.
    cbn [fst snd].
    destruct (dispatch_fields_shape _ _ _ _ _ _ _ _ _ _ _ _ _ E)
      as (evs & -> & Hlen & Hst).
    split; [destruct Hst as [[[->| ->] _]|[Hst _]]; lia|].
    exists evs. split; [reflexivity|]. split; [|exact Hst].
    split; [exact Hlen | apply enabled_specs_length].
  - split; [lia|]. exists []. rewrite app_nil_r. split; [reflexivity|].
    split; [split; [apply Nat.le_0_l | apply enabled_specs_length]|].
    left. split; [now right | constructor].
  - split; [lia|]. exists []. rewrite app_nil_r. split; [reflexivity|].
    split; [split; [apply Nat.le_0_l | repeat constructor]|].
    left. split; [now left | constructor].
Qed.

(** X12. A block that enables nothing, because it has no entry or because
    none of its valid entries carries a true value, still gives a struct and
    not NULL. Dispatching with that struct returns 0 without a call of the
    sink, whatever the handle answers; with a NULL handle it returns -1,
    unlike the dispatch with the NULL struct of an absent block. *)
Theorem X12_a_block_that_enables_nothing (ci : oconfig_item_t) (curl : CURL)
  (hostname plugin plugin_instance instance_prefix : option string)
  (log : sink_log) :
  forallb valid_child (children ci) = true ->
  forallb (fun c => negb (true_child IS_TRUE c)) (children ci) = true ->
  exists s,
    curl_stats_from_config IS_TRUE (Some ci) = (Some s, []) /\
    enabled_specs s = [] /\
    curl_stats_dispatch DATA_MAX_NAME_LEN VALUE_LIST_INIT sstrncpy ssnprintf sink
      (Some s) (Some curl) hostname plugin plugin_instance instance_prefix log
    = (0%Z, log) /\
    curl_stats_dispatch DATA_MAX_NAME_LEN VALUE_LIST_INIT sstrncpy ssnprintf sink
      (Some s) None hostname plugin plugin_instance instance_prefix log
    = ((-1)%Z, log).
Proof.
  intros V F.
  destruct (from_config_children_valid IS_TRUE _ calloc_curl_stats V)
    as (s & Hs & _).
  pose proof (from_config_children_none_true IS_TRUE _ _ _ Hs F) as ->.
  exists calloc_curl_stats. split; [|split; [reflexivity|split; [|reflexivity]]].
  - unfold curl_stats_from_config. now rewrite Hs.
  - cbn [curl_stats_dispatch]. rewrite dispatch_fields_filter.
    change (filter (fun spec => field_enabled calloc_curl_stats (offset spec))
              field_specs) with (enabled_specs calloc_curl_stats).
    reflexivity.
Qed.

(** X13. From the block to the sink: for a valid block, a handle from which
    every field the block asks for can be read, and a sink that never
    fails, the struct [curl_stats_from_config] returns makes
    [curl_stats_dispatch] return 0 after handing to the sink one value list
    for each field of the table that some entry of the block sets to true,
    in the order of the table and not in the order of the block. *)
Theorem X13_from_the_block_to_the_sink (ci : oconfig_item_t) (curl : CURL)
  (hostname plugin plugin_instance instance_prefix : option string)
  (log : sink_log) :
  forallb valid_child (children ci) = true ->
  (forall l v, (0 <= sink l v)%Z) ->
  (forall spec, In spec field_specs ->
     some_value_true IS_TRUE (children ci) spec = true ->
     getinfo_code curl spec = CURLE_OK) ->
  exists s evs,
    curl_stats_from_config IS_TRUE (Some ci) = (Some s, []) /\
    curl_stats_dispatch DATA_MAX_NAME_LEN VALUE_LIST_INIT sstrncpy ssnprintf sink
      (Some s) (Some curl) hostname plugin plugin_instance instance_prefix log
    = (0%Z, log ++ evs) /\
    map fst evs
    = map (fun spec =>
             sample (init_value_list DATA_MAX_NAME_LEN VALUE_LIST_INIT sstrncpy
                       hostname plugin plugin_instance)
               (sstrncpy (type spec) DATA_MAX_NAME_LEN)
               (ssnprintf DATA_MAX_NAME_LEN (string_or_empty instance_prefix)
                  (name spec))
               (converted_value curl spec))
          (filter (some_value_true IS_TRUE (children ci)) field_specs).
Proof.
  intros V Hsink Hread.
  destruct (from_config_children_valid IS_TRUE _ calloc_curl_stats V)
    as (s & Hs & Hen).
  assert (En : filter (fun spec => field_enabled s (offset spec)) field_specs
               = filter (some_value_true IS_TRUE (children ci)) field_specs).
  { apply filter_ext_in. intros spec Hin.
    now rewrite (Hen spec Hin), field_enabled_calloc. }
  pose proof (dispatch_fields_never_failing_sink DATA_MAX_NAME_LEN sstrncpy
                ssnprintf sink s curl instance_prefix field_specs
                (init_value_list DATA_MAX_NAME_LEN VALUE_LIST_INIT sstrncpy
                   hostname plugin plugin_instance) log Hsink) as Hst.
  assert (R : forallb (fun spec => (getinfo_code curl spec =? CURLE_OK)%Z)
                (filter (fun spec => field_enabled s (offset spec)) field_specs)
              = true).
  { rewrite En. apply forallb_forall. intros spec Hin.
    apply filter_In in Hin. destruct Hin as [Hin Ht].
    apply Z.eqb_eq. now apply Hread. }
  rewrite R in Hst.
  destruct (dispatch_fields DATA_MAX_NAME_LEN sstrncpy ssnprintf sink s curl
              instance_prefix field_specs
              (init_value_list DATA_MAX_NAME_LEN VALUE_LIST_INIT sstrncpy
                 hostname plugin plugin_instance) log)
    as [[st vl'] log'] eqn:E.
  cbn [fst] in Hst. subst st.
  destruct (dispatch_fields_ok _ _ _ _ _ _ _ _ _ _ _ _ _ E (Z.le_refl 0))
    as (_ & _ & evs & -> & Hf & _).
  exists s, evs. split; [|split].
  - unfold curl_stats_from_config. now rewrite Hs.
  - cbn [curl_stats_dispatch]. now rewrite E.
  - rewrite Hf, En. reflexivity.
Qed.

End DispatchFurther.

(** ** binary64 arithmetic, further *)

(** The product with 8.0 of a finite [double] in canonical form: the
    exponent grows by 3, or by less for a subnormal number. *)
Lemma double_times_8_finite (sx : bool) (m : positive) (e : Z) :
  bounded prec emax m e = true ->
  let e' := fexp prec emax (Zpos (digits2_pos m) + e + 3) in
  (e <= e' <= e + 3)%Z /\
  double_times_8 (S754_finite sx m e)
  = if (e' <=? emax - prec)%Z
    then S754_finite sx (Pos.shiftl_nat m (Z.to_nat (e + 3 - e'))) e'
    else S754_infinity sx.
Proof.
  intros Hvalid e'. unfold double_times_8.
  change (double_of_long 8) with (S754_finite false 4503599627370496 (-49)).
  cbn [SFmul]. rewrite xorb_false_r, Pos.mul_comm.
  change (Pos.mul 4503599627370496 m) with (Pos.shiftl_nat m 52).
  unfold bounded, canonical_mantissa in Hvalid.
  apply andb_prop in Hvalid. destruct Hvalid as [Hc He].
  apply Z.eqb_eq in Hc. apply Z.leb_le in He.
  pose proof (binary_round_aux_shifted sx m 52 (e + -49)) as B. cbv zeta in B.
  set (n := (fexp prec emax (Zpos (digits2_pos m) + Z.of_nat 52 + (e + -49))
             - (e + -49))%Z) in B.
  assert (Hn : (49 <= n <= 52)%Z /\ (e' = e + -49 + n)%Z).
  { subst n e'. unfold fexp, emin, prec, emax in *. lia. }
  destruct Hn as [Hn He'].
  split; [lia|].
  rewrite B by lia.
  replace (e + -49 + Z.of_nat (Z.to_nat n))%Z with e' by lia.
  replace (52 - Z.to_nat n) with (Z.to_nat (e + 3 - e')) by lia.
  reflexivity.
Qed.

(** X14. [v.gauge *= 8] on a finite, canonical [double] with mantissa [m]
    and exponent [e]: for a normal number the product has the same
    mantissa and the exponent [e + 3] as long as that is an exponent of
    binary64, that is up to [e = 968]; above, the product is the infinity
    of the same sign. A speed of 2^1021 bytes per second or more is
    therefore dispatched as an infinite bit rate, every smaller one as a
    finite number. *)
Theorem X14_times_8_overflows_from_exponent_969 (sx : bool) (m : positive) (e : Z) :
  valid_binary prec emax (S754_finite sx m e) = true ->
  ((968 < e)%Z -> double_times_8 (S754_finite sx m e) = S754_infinity sx) /\
  ((e <= 968)%Z -> is_finite (double_times_8 (S754_finite sx m e)) = true) /\
  ((e <= 968)%Z -> Zpos (digits2_pos m) = prec ->
   double_times_8 (S754_finite sx m e) = S754_finite sx m (e + 3)).
Proof.
  cbn [valid_binary]. intros Hvalid.
  destruct (double_times_8_finite sx m e Hvalid) as [He' ->].
  unfold bounded, canonical_mantissa in Hvalid.
  apply andb_prop in Hvalid. destruct Hvalid as [Hc He].
  apply Z.eqb_eq in Hc. apply Z.leb_le in He.
  split; [|split].
  - intros H.
    assert (L : (fexp prec emax (Zpos (digits2_pos m) + e + 3) <=? emax - prec)%Z
                = false).
    { apply Z.leb_gt. unfold fexp, emin, prec, emax in *. lia. }
    now rewrite L.
  - intros H.
    assert (L : (fexp prec emax (Zpos (digits2_pos m) + e + 3) <=? emax - prec)%Z
                = true).
    { apply Z.leb_le. unfold fexp, emin, prec, emax in *. lia. }
    now rewrite L.
  - intros H Hd.
    assert (E : fexp prec emax (Zpos (digits2_pos m) + e + 3) = (e + 3)%Z).
    { unfold fexp, emin, prec, emax in *. lia. }
    rewrite E.
    assert (L : (e + 3 <=? emax - prec)%Z = true).
    { apply Z.leb_le. unfold prec, emax in *. lia. }
    rewrite L. replace (e + 3 - (e + 3))%Z with 0%Z by lia. reflexivity.
Qed.

(** X15. [v.gauge *= 8] keeps a [double] well formed and keeps its sign:
    zeros, infinities and NaN are returned as they are, and the product of
    a finite canonical number is an infinity or a finite canonical number
    of the same sign. *)
Theorem X15_times_8_keeps_doubles_well_formed (v : double) :
  valid_binary prec emax v = true ->
  valid_binary prec emax (double_times_8 v) = true /\
  match v with
  | S754_finite sx _ _ =>
      match double_times_8 v with
      | S754_finite sx' _ _ | S754_infinity sx' => sx' = sx
      | _ => False
      end
  | _ => double_times_8 v = v
  end.
Proof.
  destruct v as [sx|sx| |sx m e]; cbn [valid_binary]; intros Hvalid.
  - split; [reflexivity|]. now destruct sx.
  - split; [reflexivity|]. now destruct sx.
  - split; reflexivity.
  - destruct (double_times_8_finite sx m e Hvalid) as [He' ->].
    destruct (fexp prec emax (Zpos (digits2_pos m) + e + 3) <=? emax - prec)%Z
      eqn:L; [|split; reflexivity].
    split; [|reflexivity].
    cbn [valid_binary]. unfold bounded. rewrite L, andb_true_r.
    unfold canonical_mantissa. apply Z.eqb_eq.
    rewrite digits2_shiftl_nat, Z2Nat.id by lia.
    f_equal. lia.
Qed.

(** ** The conversion of a long, for every long *)

Section LongToDouble.

Local Open Scope Z_scope.

Lemma digits2_lt (q : positive) : Zpos q < 2 ^ Zpos (digits2_pos q).
Proof.
  induction q as [q IH|q IH|]; cbn [digits2_pos].
  - rewrite Pos2Z.inj_succ, Z.pow_succ_r by lia. rewrite (Pos2Z.inj_xI q). lia.
  - rewrite Pos2Z.inj_succ, Z.pow_succ_r by lia. rewrite (Pos2Z.inj_xO q). lia.
  - reflexivity.
Qed.

Lemma shr_1_nonneg (q : Z) (r s : bool) :
  0 <= q ->
  shr_1 (Build_shr_record q r s) = Build_shr_record (q / 2) (Z.odd q) (r || s).
Proof.
  intros H. rewrite <- Z.div2_div.
  destruct q as [|[p|p|]|p]; try reflexivity. lia.
Qed.

Lemma iter_shr_1 (j : nat) (m : Z) :
  0 <= m ->
  Nat.iter (S j) shr_1 (Build_shr_record m false false)
  = Build_shr_record (m / 2 ^ Z.of_nat (S j)) (Z.odd (m / 2 ^ Z.of_nat j))
      (negb (m mod 2 ^ Z.of_nat j =? 0)).
Proof.
  intros Hm. induction j as [|j IH].
  - cbn [Nat.iter nat_rect]. rewrite shr_1_nonneg by exact Hm.
    change (2 ^ Z.of_nat 1) with 2. change (2 ^ Z.of_nat 0) with 1.
    rewrite Z.div_1_r, Z.mod_1_r. reflexivity.
  - change (Nat.iter (S (S j)) shr_1 (Build_shr_record m false false))
      with (shr_1 (Nat.iter (S j) shr_1 (Build_shr_record m false false))).
    rewrite IH.
    assert (P : 0 < 2 ^ Z.of_nat j) by (apply Z.pow_pos_nonneg; lia).
    assert (E1 : 2 ^ Z.of_nat (S j) = 2 ^ Z.of_nat j * 2).
    { rewrite Nat2Z.inj_succ, Z.pow_succ_r by lia. lia. }
    assert (E2 : 2 ^ Z.of_nat (S (S j)) = 2 ^ Z.of_nat (S j) * 2).
    { rewrite (Nat2Z.inj_succ (S j)), Z.pow_succ_r by lia. lia. }
    rewrite shr_1_nonneg by (apply Z.div_pos; lia).
    f_equal.
    + rewrite E2, Z.div_div by lia. reflexivity.
    + rewrite E1, Z.rem_mul_r by lia.
      rewrite Zmod_odd.
      destruct (Z.odd (m / 2 ^ Z.of_nat j)); cbn [orb].
      * symmetry. apply negb_true_iff. apply Z.eqb_neq.
        pose proof (Z.mod_pos_bound m (2 ^ Z.of_nat j) P). lia.
      * f_equal. f_equal. lia.
Qed.

(** Rounding to nearest, ties to even, after a shift by [S j] bits: the
    mantissa chosen is the quotient or the next integer, and what it stands
    for is off by at most half of the last bit kept. *)
Lemma round_nearest_even_close (j : nat) (m : Z) :
  0 <= m ->
  let mrs := Nat.iter (S j) shr_1 (Build_shr_record m false false) in
  let q := m / 2 ^ Z.of_nat (S j) in
  let m1 := round_nearest_even (shr_m mrs) (loc_of_shr_record mrs) in
  (m1 = q \/ m1 = q + 1) /\
  2 * Z.abs (m1 * 2 ^ Z.of_nat (S j) - m) <= 2 ^ Z.of_nat (S j).
Proof.
  intros Hm mrs q m1. subst mrs m1. rewrite iter_shr_1 by exact Hm.
  cbn [shr_m]. fold q.
  assert (P : 0 < 2 ^ Z.of_nat j) by (apply Z.pow_pos_nonneg; lia).
  assert (E1 : 2 ^ Z.of_nat (S j) = 2 ^ Z.of_nat j * 2).
  { rewrite Nat2Z.inj_succ, Z.pow_succ_r by lia. lia. }
  pose proof (Z.div_mod m (2 ^ Z.of_nat j) ltac:(lia)) as D1.
  pose proof (Z.mod_pos_bound m (2 ^ Z.of_nat j) P) as B1.
  pose proof (Z.div_mod (m / 2 ^ Z.of_nat j) 2 ltac:(lia)) as D2.
  rewrite Zmod_odd in D2.
  assert (Q : m / 2 ^ Z.of_nat j / 2 = q).
  { unfold q. rewrite E1, Z.div_div by lia. reflexivity. }
  rewrite Q in D2.
  set (a := m / 2 ^ Z.of_nat j) in *. set (t := m mod 2 ^ Z.of_nat j) in *.
  set (w := 2 ^ Z.of_nat j) in *. rewrite E1. clearbody a t w q.
  destruct (Z.odd a); destruct (Z.eqb_spec t 0) as [T|T];
    cbn [negb loc_of_shr_record round_nearest_even].
  - destruct (Z.even q); split; auto; nia.
  - split; [now right|]. nia.
  - split; [now left|]. nia.
  - split; [now left|]. nia.
Qed.

Lemma digits2_at_least (q : positive) (b : Z) :
  2 ^ b <= Zpos q -> b < Zpos (digits2_pos q).
Proof.
  intros H. pose proof (digits2_lt q) as L.
  destruct (Z.lt_ge_cases b (Zpos (digits2_pos q))) as [|G]; [assumption|].
  pose proof (Z.pow_le_mono_r 2 _ _ ltac:(lia) G). lia.
Qed.

(** Rounding an integer of more than 53 bits: the result is finite and
    canonical, an integer, and off by at most the fraction 2^-53 of the
    integer rounded. *)
Lemma binary_round_aux_wide (sx : bool) (p : positive) :
  53 < Zpos (digits2_pos p) <= 1023 ->
  exists M E,
    binary_round_aux prec emax sx (Zpos p) 0 loc_Exact = S754_finite sx M E /\
    0 <= E /\ bounded prec emax M E = true /\
    2 ^ 53 * Z.abs (Zpos M * 2 ^ E - Zpos p) <= Zpos p.
Proof.
  intros HD. set (D := Zpos (digits2_pos p)) in *.
  assert (Hn : fexp prec emax (D + 0) - 0 = D - 53).
  { unfold fexp, emin, prec, emax. lia. }
  destruct (D - 53) as [|k|k] eqn:Ek; [lia| |lia].
  destruct (Pos2Nat.is_succ k) as [j Hj].
  assert (Hk : Z.of_nat (S j) = Zpos k) by (rewrite <- Hj; apply positive_nat_Z).
  assert (S1 : shr_fexp prec emax (Zpos p) 0 loc_Exact
               = (Nat.iter (S j) shr_1 (Build_shr_record (Zpos p) false false),
                  0 + Zpos k)).
  { unfold shr_fexp. cbn [Zdigits2 shr_record_of_loc]. fold D. rewrite Hn.
    unfold shr. now rewrite iter_pos_nat, Hj. }
  unfold binary_round_aux. rewrite S1.
  destruct (round_nearest_even_close j (Zpos p) ltac:(lia)) as [Hm1 Herr].
  set (mrs := Nat.iter (S j) shr_1 (Build_shr_record (Zpos p) false false)) in *.
  set (m1 := round_nearest_even (shr_m mrs) (loc_of_shr_record mrs)) in *.
  rewrite Hk in Herr, Hm1. clearbody m1. clear S1. clear mrs.
  pose proof (digits2_lower p) as Lo. pose proof (digits2_lt p) as Up. fold D in Lo, Up.
  assert (Ed : D = 53 + Zpos k) by lia.
  assert (P52 : 2 ^ (D - 1) = 2 ^ 52 * 2 ^ Zpos k).
  { rewrite <- Z.pow_add_r by lia. f_equal. lia. }
  assert (P53 : 2 ^ D = 2 ^ 53 * 2 ^ Zpos k).
  { rewrite <- Z.pow_add_r by lia. f_equal. lia. }
  assert (Pk : 0 < 2 ^ Zpos k) by (apply Z.pow_pos_nonneg; lia).
  set (q := Zpos p / 2 ^ Zpos k) in *.
  assert (Hq : 2 ^ 52 <= q < 2 ^ 53).
  { unfold q. split.
    - apply Z.div_le_lower_bound; lia.
    - apply Z.div_lt_upper_bound; lia. }
  assert (Hrange : 2 ^ 52 <= m1 <= 2 ^ 53) by lia.
  destruct m1 as [|p1|p1]; [lia| |lia].
  assert (Hd1 : 53 <= Zpos (digits2_pos p1) <= 54).
  { split.
    - pose proof (digits2_at_least p1 52). lia.
    - apply digits2_upper; lia. }
  unfold shr_fexp. cbn [Zdigits2 shr_record_of_loc]. unfold shr.
  assert (Epow : 2 ^ 53 * 2 ^ Zpos k <= 2 * Zpos p) by lia.
  destruct (Z.eq_dec (Zpos (digits2_pos p1)) 53) as [E53|N53].
  - assert (Hz : fexp prec emax (Zpos (digits2_pos p1) + (0 + Zpos k)) - (0 + Zpos k)
                 = 0).
    { unfold fexp, emin, prec, emax. lia. }
    rewrite Hz. cbn [shr_m].
    assert (L : (0 + Zpos k <=? emax - prec) = true).
    { apply Z.leb_le. unfold emax, prec. lia. }
    rewrite L. exists p1, (0 + Zpos k). split; [reflexivity|].
    split; [lia|]. split.
    + unfold bounded, canonical_mantissa. rewrite L, andb_true_r.
      apply Z.eqb_eq. unfold fexp, emin, prec, emax. lia.
    + rewrite Z.add_0_l. nia.
  - assert (E54 : Zpos (digits2_pos p1) = 54) by lia.
    assert (Hp1 : Zpos p1 = 2 ^ 53).
    { pose proof (digits2_lower p1) as Lo1. rewrite E54 in Lo1.
      change (54 - 1) with 53 in Lo1. lia. }
    assert (Hz : fexp prec emax (Zpos (digits2_pos p1) + (0 + Zpos k)) - (0 + Zpos k)
                 = 1).
    { unfold fexp, emin, prec, emax. lia. }
    rewrite Hz. cbn [SpecFloat.iter_pos].
    rewrite shr_1_nonneg by lia. cbn [shr_m]. rewrite Hp1.
    change (2 ^ 53 / 2) with (Zpos 4503599627370496).
    assert (L : (0 + Zpos k + 1 <=? emax - prec) = true).
    { apply Z.leb_le. unfold emax, prec. lia. }
    rewrite L. exists 4503599627370496%positive, (0 + Zpos k + 1).
    split; [reflexivity|]. split; [lia|]. split.
    + unfold bounded, canonical_mantissa. rewrite L, andb_true_r.
      apply Z.eqb_eq. change (Zpos (digits2_pos 4503599627370496)) with 53.
      unfold fexp, emin, prec, emax. lia.
    + replace (0 + Zpos k + 1) with (Z.succ (Zpos k)) by lia.
      rewrite Z.pow_succ_r by lia.
      change (Zpos 4503599627370496) with (2 ^ 52).
      rewrite Hp1 in Herr.
      replace (2 ^ 52 * (2 * 2 ^ Zpos k)) with (2 ^ 53 * 2 ^ Zpos k)
        by (change (2 ^ 53) with (2 * 2 ^ 52); ring).
      nia.
Qed.

(** Converting an integer of at most 53 bits: the mantissa is the integer
    shifted to 53 bits. *)
Lemma binary_round_narrow (sx : bool) (p : positive) :
  Zpos (digits2_pos p) <= 53 ->
  binary_round prec emax sx p 0
  = S754_finite sx (Pos.shiftl_nat p (Z.to_nat (53 - Zpos (digits2_pos p))))
      (Zpos (digits2_pos p) - 53).
Proof.
  intros HD. set (D := Zpos (digits2_pos p)) in *.
  unfold binary_round, shl_align. fold D.
  assert (Hf : fexp prec emax (D + 0) = D - 53).
  { unfold fexp, emin, prec, emax. lia. }
  rewrite Hf.
  assert (Sh : forall j : nat, Z.of_nat j = 53 - D ->
            binary_round_aux prec emax sx (Zpos (Pos.shiftl_nat p j)) (D - 53)
              loc_Exact
            = S754_finite sx (Pos.shiftl_nat p j) (D - 53)).
  { intros j Hj.
    pose proof (binary_round_aux_shifted sx p j (D - 53)) as B. cbv zeta in B.
    fold D in B.
    assert (Hn : fexp prec emax (D + Z.of_nat j + (D - 53)) - (D - 53) = 0).
    { unfold fexp, emin, prec, emax. lia. }
    rewrite Hn in B. rewrite B by lia. cbn [Z.to_nat Z.of_nat].
    assert (L : (D - 53 + 0 <=? emax - prec) = true).
    { apply Z.leb_le. unfold emax, prec. lia. }
    rewrite L, Nat.sub_0_r, Z.add_0_r. reflexivity. }
  destruct (D - 53 - 0) as [|d|d] eqn:E.
  - assert (E0 : D - 53 = 0) by lia.
    replace (53 - D) with 0 by lia. cbn [Z.to_nat]. rewrite E0.
    pose proof (Sh 0%nat ltac:(lia)) as S0. rewrite E0 in S0. exact S0.
  - lia.
  - rewrite Pos2Nat.inj_iter.
    change (nat_rect (fun _ => positive) p (fun _ => xO) (Pos.to_nat d))
      with (Pos.shiftl_nat p (Pos.to_nat d)).
    replace (Z.to_nat (53 - D)) with (Pos.to_nat d) by lia.
    apply Sh. rewrite positive_nat_Z. lia.
Qed.

Lemma SF2Q_integer (sx : bool) (M : positive) (E : Z) :
  0 <= E ->
  (SF2Q (S754_finite sx M E) == inject_Z (cond_Zopp sx (Zpos M * 2 ^ E)))%Q.
Proof.
  intros HE. unfold SF2Q.
  assert (P : (2 ^ E == inject_Z (2 ^ E))%Q).
  { rewrite Zpower_Qpower by exact HE. reflexivity. }
  rewrite P, <- inject_Z_mult. destruct sx; cbn [cond_Zopp];
    [rewrite Z.mul_opp_l|]; reflexivity.
Qed.

(** The conversion of a non-zero integer of at most 64 bits. *)
Lemma binary_round_long (sx : bool) (p : positive) :
  Zpos p <= 2 ^ 63 ->
  exists M E z,
    binary_round prec emax sx p 0 = S754_finite sx M E /\
    bounded prec emax M E = true /\
    (SF2Q (S754_finite sx M E) == inject_Z (cond_Zopp sx z))%Q /\
    2 ^ 53 * Z.abs (z - Zpos p) <= Zpos p.
Proof.
  intros Hp.
  assert (HD : Zpos (digits2_pos p) <= 64) by (apply digits2_upper; lia).
  destruct (Z.le_gt_cases (Zpos (digits2_pos p)) 53) as [Narrow|Wide].
  - rewrite (binary_round_narrow sx p Narrow).
    eexists. eexists. exists (Zpos p). split; [reflexivity|]. split; [|split].
    + unfold bounded, canonical_mantissa.
      rewrite digits2_shiftl_nat, Z2Nat.id by lia.
      apply andb_true_intro. split.
      * apply Z.eqb_eq. unfold fexp, emin, prec, emax. lia.
      * apply Z.leb_le. unfold emax, prec. lia.
    + rewrite SF2Q_shifted.
      replace (Zpos (digits2_pos p) - 53
               + Z.of_nat (Z.to_nat (53 - Zpos (digits2_pos p)))) with 0 by lia.
      rewrite SF2Q_integer by lia. now rewrite Z.mul_1_r.
    + replace (Zpos p - Zpos p) with 0 by lia. cbn. lia.
  - destruct (binary_round_aux_wide sx p ltac:(lia)) as (M & E & HB & HE & Hb & Herr).
    exists M, E, (Zpos M * 2 ^ E). split; [|split; [exact Hb|split; [|exact Herr]]].
    + unfold binary_round, shl_align.
      assert (Hf : fexp prec emax (Zpos (digits2_pos p) + 0)
                   = Zpos (digits2_pos p) - 53).
      { unfold fexp, emin, prec, emax. lia. }
      rewrite Hf.
      destruct (Zpos (digits2_pos p) - 53 - 0) as [|d|d] eqn:Ed; [lia| |lia].
      exact HB.
    + now apply SF2Q_integer.
Qed.

(** X16. [(double)raw] for every 64-bit [long], not only for those a
    [double] holds exactly: the result is finite and canonical (never an
    infinity or NaN), it is an integer, and it differs from [raw] by at most
    the fraction 2^-53 of [raw], the bound of rounding to nearest. *)
Theorem X16_long_to_double_is_finite_and_close (raw : Z) :
  LONG_MIN <= raw <= LONG_MAX ->
  is_finite (double_of_long raw) = true /\
  valid_binary prec emax (double_of_long raw) = true /\
  exists z : Z,
    (SF2Q (double_of_long raw) == inject_Z z)%Q /\
    2 ^ 53 * Z.abs (z - raw) <= Z.abs raw.
Proof.
  unfold LONG_MIN, LONG_MAX. intros Hrange.
  unfold double_of_long, binary_normalize.
  destruct raw as [|p|p].
  - split; [reflexivity|]. split; [reflexivity|]. exists 0. split; [reflexivity|].
    cbn. lia.
  - destruct (binary_round_long false p ltac:(lia)) as (M & E & z & -> & Hb & Hv & He).
    split; [reflexivity|]. split; [exact Hb|]. exists z. split; [exact Hv|].
    cbn [Z.abs]. exact He.
  - destruct (binary_round_long true p ltac:(lia)) as (M & E & z & -> & Hb & Hv & He).
    split; [reflexivity|]. split; [exact Hb|]. exists (- z). split; [exact Hv|].
    cbn [Z.abs]. replace (- z - Zneg p) with (- (z - Zpos p)) by lia.
    now rewrite Z.abs_opp.
Qed.

End LongToDouble.

Local Open Scope string_scope.

(** ** The statements at sample inputs *)

Lemma C1_witness :
  exists s,
    curl_stats_from_config IS_TRUE_common (Some config_sample) = (Some s, []) /\
    (forall spec, In spec field_specs ->
       (field_enabled s (offset spec) = true <->
        exists c, In c (children config_sample) /\ key_matches c spec = true /\
                  true_child IS_TRUE_common c = true)) /\
    (forall ci', Permutation (children config_sample) (children ci') ->
       curl_stats_from_config IS_TRUE_common (Some ci') = (Some s, [])).
Proof.
  apply (C1_valid_config_enables_fields_with_a_true_value IS_TRUE_common config_sample).
  reflexivity.
Defined.

(** C1 as stated fails: with the key total_time first true, then false, the
    last value is false and the field is enabled all the same. *)
Lemma C1_counterexample :
  forallb valid_child (children config_duplicate) = true /\
  last_value_true IS_TRUE_common (children config_duplicate) spec_total_time = false /\
  curl_stats_from_config IS_TRUE_common (Some config_duplicate)
  = (Some (stats_of ["total_time"]), []) /\
  field_enabled (stats_of ["total_time"]) (offset spec_total_time) = true.
Proof. repeat split; reflexivity. Qed.

Lemma C2_witness :
  fst (curl_stats_from_config IS_TRUE_common (Some config_number)) = None /\
  (exists e, snd (curl_stats_from_config IS_TRUE_common (Some config_number)) = [e]) /\
  curl_stats_from_config IS_TRUE_common (Some config_number)
  = (None, [InvalidValue "total_time"]).
Proof.
  destruct (C2_known_key_with_invalid_value_fails IS_TRUE_common config_number []
              [] (entry "total_time" (OCONFIG_TYPE_NUMBER (double_of_long 1)))
              spec_total_time eq_refl (or_introl eq_refl) eq_refl eq_refl)
    as (H1 & H2 & H3 & _).
  split; [exact H1|]. split; [exact H2|]. exact (H3 eq_refl).
Defined.

(** C2 as stated fails: "banana" is read neither as true nor as false, yet
    the block is accepted and the field stays disabled. *)
Lemma C2_counterexample :
  key_matches (entry "total_time" (OCONFIG_TYPE_STRING "banana")) spec_total_time
  = true /\
  IS_TRUE_common "banana" = false /\ IS_FALSE_common "banana" = false /\
  curl_stats_from_config IS_TRUE_common (Some config_banana)
  = (Some calloc_curl_stats, []).
Proof. repeat split; reflexivity. Qed.

Lemma C5_witness :
  fst (curl_stats_from_config IS_TRUE_common (Some config_unknown)) = None /\
  (exists e, snd (curl_stats_from_config IS_TRUE_common (Some config_unknown)) = [e]) /\
  curl_stats_from_config IS_TRUE_common (Some config_unknown)
  = (None, [UnknownField "bogus"]).
Proof.
  assert (Hno : forall spec, In spec field_specs ->
                  key_matches (entry "bogus" (OCONFIG_TYPE_BOOLEAN true)) spec = false).
  { intros spec H. cbv [field_specs In] in H.
    repeat (destruct H as [H|H]; [subst spec; reflexivity|]). destruct H. }
  destruct (C5_unknown_key_fails IS_TRUE_common config_unknown
              [entry "total_time" (OCONFIG_TYPE_BOOLEAN true)] []
              (entry "bogus" (OCONFIG_TYPE_BOOLEAN true)) eq_refl Hno)
    as (H1 & H2 & H3).
  split; [exact H1|]. split; [exact H2|]. exact (H3 eq_refl).
Defined.

(** C5 as stated fails: the key bogus is unknown, but the entry before it
    has no value, and the error logged is the one of that entry. *)
Lemma C5_counterexample :
  known_key (entry "bogus" (OCONFIG_TYPE_BOOLEAN true)) = false /\
  curl_stats_from_config IS_TRUE_common (Some config_invalid_then_unknown)
  = (None, [InvalidValue "total_time"]) /\
  existsb is_unknown_field
    (snd (curl_stats_from_config IS_TRUE_common (Some config_invalid_then_unknown)))
  = false.
Proof. repeat split; reflexivity. Qed.

Lemma C3_witness :
  exists evs status,
    snd (curl_stats_dispatch_sample sink_ok
           (Some stats_time_speed_connects) (Some curl_sample)
           (Some "host1") None (Some "inst") (Some "pfx-") [])
    = ([] ++ evs)%list /\
    with_type_instance "pfx-speed_upload" evs =
    [(Build_value_list_t [double_times_8 double_one_point_five] 0 10
        "host1" "" "inst" "bitrate" "pfx-speed_upload", status)].
Proof.
  destruct (C3_one_value_list_per_enabled_field 64 VALUE_LIST_INIT_sample
              sstrncpy_common ssnprintf_common sink_ok
              stats_time_speed_connects curl_sample (Some "pfx-")
              (Some "host1") None (Some "inst") []
              (firstn 7 field_specs) (skipn 8 field_specs) spec_speed_upload
              sstrncpy_common_fits ssnprintf_common_fits)
    as (evs & Hlog & _ & Hen).
  - intros f H. cbv [field_specs In] in H.
    repeat (destruct H as [H|H]; [subst f; apply Nat.ltb_lt; reflexivity|]).
    destruct H.
  - apply Nat.ltb_lt. reflexivity.
  - reflexivity.
  - destruct (Hen eq_refl eq_refl eq_refl) as (status & Hst).
    exists evs, status. split; [exact Hlog | exact Hst].
Defined.

(** C3 as stated fails twice. With total_time and num_connects enabled and a
    transfer whose total time cannot be read, nothing is handed to the sink
    for num_connects, whose value 3 can be read. And with a prefix of 60
    characters the type instance of total_time is cut to 63 characters. *)
Lemma C3_counterexample :
  (field_enabled (stats_of ["total_time"; "num_connects"]) (offset spec_num_connects)
   = true /\
   curl_easy_getinfo_long curl_no_total_time CURLINFO_NUM_CONNECTS = (CURLE_OK, 3%Z) /\
   curl_stats_dispatch_sample sink_ok
     (Some (stats_of ["total_time"; "num_connects"])) (Some curl_no_total_time)
     None None None None []
   = ((-1)%Z, [])) /\
  (map (fun e => vl_type_instance (fst e))
     (snd (curl_stats_dispatch_sample sink_ok
             (Some (stats_of ["total_time"])) (Some curl_sample)
             None None None (Some long_prefix) []))
   = ["aaaaaaaaaabbbbbbbbbbccccccccccddddddddddeeeeeeeeeefffffffffftot"] /\
   String.eqb "aaaaaaaaaabbbbbbbbbbccccccccccddddddddddeeeeeeeeeefffffffffftot"
     (String.append long_prefix (name spec_total_time)) = false).
Proof. repeat split; reflexivity. Qed.

Lemma C4_witness :
  exists st log',
    curl_stats_dispatch_sample sink_no_bytes
      (Some stats_time_size_connects) (Some curl_sample)
      (Some "host1") None (Some "inst") (Some "pfx-") []
    = (st, log') /\
    (st < 0)%Z /\
    emitted log' =
    [Build_value_list_t [double_one_point_five] 0 10 "host1" "" "inst"
       "duration" "pfx-total_time"].
Proof.
  destruct (C4_first_failure_stops_the_dispatch 64 VALUE_LIST_INIT_sample
              sstrncpy_common ssnprintf_common
              sink_no_bytes stats_time_size_connects curl_sample (Some "pfx-")
              (Some "host1") None (Some "inst") [] 1 spec_size_upload
              (snd (fst run_before_size_upload)) (snd run_before_size_upload)
              eq_refl eq_refl)
    as (st & log' & Hrun & Hst & _ & _ & Hpre & Hlog).
  - right. reflexivity.
  - exists st, log'. split; [exact Hrun|]. split; [exact Hst|].
    rewrite Hlog, Hpre. reflexivity.
Defined.

Lemma C6_witness :
  exists status smp,
    dispatch_field_sample sink_ok stats_time_speed_connects curl_sample (Some "pfx-")
      spec_speed_upload VALUE_LIST_INIT_sample []
    = (status, smp, ([] ++ [(smp, status)])%list) /\
    vl_values smp = [S754_finite false 6755399441055744 (-49)] /\
    (SF2Q (S754_finite false 6755399441055744 (-49)) == 8 * SF2Q double_one_point_five)%Q.
Proof.
  destruct (C6_speed_is_dispatched_times_8 64 sstrncpy_common ssnprintf_common
              sink_ok stats_time_speed_connects
              curl_sample (Some "pfx-") spec_speed_upload VALUE_LIST_INIT_sample []
              double_one_point_five eq_refl eq_refl eq_refl)
    as (status & smp & Hrun & Hval & _ & Hexact).
  exists status, smp. split; [exact Hrun|]. split; [exact Hval|].
  exact (Hexact eq_refl eq_refl).
Defined.

Lemma C7_witness :
  exists status smp,
    dispatch_field_sample sink_ok stats_time_speed_connects curl_sample (Some "pfx-")
      spec_num_connects VALUE_LIST_INIT_sample []
    = (status, smp, ([] ++ [(smp, status)])%list) /\
    vl_values smp = [S754_finite false 6755399441055744 (-51)] /\
    (SF2Q (S754_finite false 6755399441055744 (-51)) == 3)%Q.
Proof.
  destruct (C7_size_is_dispatched_as_double 64 sstrncpy_common ssnprintf_common
              sink_ok stats_time_speed_connects
              curl_sample (Some "pfx-") spec_num_connects VALUE_LIST_INIT_sample []
              3%Z eq_refl eq_refl eq_refl)
    as (status & smp & Hrun & Hval & Hexact & Hsmall).
  exists status, smp. split; [exact Hrun|]. split; [exact Hval|].
  apply Hexact.
  - unfold LONG_MIN, LONG_MAX. lia.
  - apply Hsmall. cbn. lia.
Defined.

Lemma C8_witness :
  emitted (snd (curl_stats_dispatch_sample sink_ok
                  (Some stats_time_speed_connects) (Some curl_sample)
                  (Some "host1") None (Some "inst") (Some "pfx-") []))
  = map (fun spec =>
           sample (init_value_list_sample (Some "host1") None (Some "inst"))
             (type spec) (String.append "pfx-" (name spec))
             (converted_value curl_sample spec))
        [spec_total_time; spec_speed_upload; spec_num_connects].
Proof.
  destruct (C8_value_lists_follow_the_table 64 VALUE_LIST_INIT_sample
              sstrncpy_common ssnprintf_common sink_ok
              stats_time_speed_connects curl_sample (Some "pfx-")
              (Some "host1") None (Some "inst") []
              (snd (curl_stats_dispatch_sample sink_ok
                      (Some stats_time_speed_connects) (Some curl_sample)
                      (Some "host1") None (Some "inst") (Some "pfx-") []))
              eq_refl)
    as (_ & Hem & _).
  exact Hem.
Defined.

Lemma C9_witness :
  curl_stats_dispatch_sample sink_ok
    (Some (stats_of ["total_time"])) None None None None None [] = ((-1)%Z, []) /\
  curl_stats_dispatch_sample sink_ok
    (Some (stats_of ["total_time"])) (Some curl_no_total_time) None None None None []
  = ((-1)%Z, []).
Proof.
  destruct (C9_null_handle_and_null_struct 64 VALUE_LIST_INIT_sample
              sstrncpy_common ssnprintf_common sink_ok
              (stats_of ["total_time"]) curl_no_total_time None None None None [])
    as (Hnull & _ & Hfail).
  split; [exact Hnull|]. apply (Hfail spec_total_time eq_refl). discriminate.
Defined.

(** C9 as stated fails: with a NULL struct a NULL handle is not reported, the
    call returns 0; and where a NULL handle is reported, the status is the
    -1 of a value that cannot be read. *)
Lemma C9_counterexample :
  curl_stats_dispatch_sample sink_ok None None
    None None None None [] = (0%Z, []) /\
  curl_stats_dispatch_sample sink_ok
    (Some (stats_of ["total_time"])) None None None None None []
  = curl_stats_dispatch_sample sink_ok
      (Some (stats_of ["total_time"])) (Some curl_no_total_time)
      None None None None [].
Proof. split; reflexivity. Qed.

(** ** The further properties at sample inputs *)

Lemma In_spec_total_time : In spec_total_time field_specs.
Proof. left. reflexivity. Defined.

Lemma In_spec_speed_upload : In spec_speed_upload field_specs.
Proof. do 7 right. left. reflexivity. Defined.

Lemma X1_witness :
  key_matches (entry "Total_Time" (OCONFIG_TYPE_BOOLEAN true)) spec_total_time
  = true /\
  find_field "Total_Time" field_specs 0 = offset spec_total_time /\
  String.length "Total_Time" = String.length (name spec_total_time).
Proof.
  destruct (X1_key_selects_the_field_it_spells
              (entry "Total_Time" (OCONFIG_TYPE_BOOLEAN true)) spec_total_time
              In_spec_total_time eq_refl) as [Hiff Hm].
  split; [apply Hiff; reflexivity|]. apply Hm. apply Hiff. reflexivity.
Defined.

Lemma X2_witness :
  fst (curl_stats_from_config IS_TRUE_common (Some config_sample))
  = fst (curl_stats_from_config IS_TRUE_common (Some config_shouting)) /\
  map is_unknown_field
    (snd (curl_stats_from_config IS_TRUE_common (Some config_sample)))
  = map is_unknown_field
      (snd (curl_stats_from_config IS_TRUE_common (Some config_shouting))).
Proof.
  apply (X2_only_keys_up_to_case_and_values_are_read IS_TRUE_common
           config_sample config_shouting).
  repeat constructor.
Defined.

Lemma X3_witness :
  (forall spec, In spec field_specs ->
     field_enabled (stats_of ["total_time"]) (offset spec) = true ->
     field_enabled (stats_of ["total_time"; "size_download"]) (offset spec) = true) /\
  (forallb (fun c => negb (true_child IS_TRUE_common c)) (children config_sample)
   = true ->
   stats_of ["total_time"; "size_download"] = stats_of ["total_time"]).
Proof.
  apply (X3_entries_never_disable_a_field IS_TRUE_common (children config_sample)
           (stats_of ["total_time"]) (stats_of ["total_time"; "size_download"])).
  reflexivity.
Defined.

Lemma X4_witness :
  exists s12,
    curl_stats_from_config IS_TRUE_common
      (Some (block (children config_sample ++ children config_speed_upload)))
    = (Some s12, []) /\
    forall spec, In spec field_specs ->
      field_enabled s12 (offset spec)
      = field_enabled (stats_of ["total_time"; "size_download"]) (offset spec)
        || field_enabled (stats_of ["speed_upload"]) (offset spec).
Proof.
  apply (X4_concatenated_blocks_enable_the_union IS_TRUE_common
           config_sample config_speed_upload
           (block (children config_sample ++ children config_speed_upload))
           (stats_of ["total_time"; "size_download"]) (stats_of ["speed_upload"]));
    reflexivity.
Defined.

Lemma X6_witness :
  offset spec_total_time < List.length (bytes_of calloc_curl_stats) /\
  (offset spec_total_time = offset spec_speed_upload ->
   spec_total_time = spec_speed_upload) /\
  field_enabled (enable_field calloc_curl_stats (offset spec_total_time))
    (offset spec_total_time) = true /\
  (spec_total_time <> spec_speed_upload ->
   field_enabled (enable_field calloc_curl_stats (offset spec_total_time))
     (offset spec_speed_upload)
   = field_enabled calloc_curl_stats (offset spec_speed_upload)) /\
  enable_field (enable_field calloc_curl_stats (offset spec_total_time))
    (offset spec_total_time)
  = enable_field calloc_curl_stats (offset spec_total_time) /\
  enable_field (enable_field calloc_curl_stats (offset spec_total_time))
    (offset spec_speed_upload)
  = enable_field (enable_field calloc_curl_stats (offset spec_speed_upload))
      (offset spec_total_time).
Proof.
  exact (X6_enable_field_sets_the_flag_of_one_entry calloc_curl_stats
           spec_total_time spec_speed_upload
           In_spec_total_time In_spec_speed_upload).
Defined.

Lemma X7_witness :
  fst (curl_stats_dispatch_sample sink_ok (Some stats_time_speed_connects)
         (Some curl_sample) (Some "host1") None (Some "inst") (Some "pfx-") [])
  = 0%Z /\
  fst (curl_stats_dispatch_sample sink_ok (Some stats_time_speed_connects)
         (Some curl_no_total_time) (Some "host1") None (Some "inst")
         (Some "pfx-") [])
  = (-1)%Z.
Proof.
  split.
  - exact (X7_success_is_decided_by_the_enabled_fields 64 VALUE_LIST_INIT_sample
             sstrncpy_common ssnprintf_common sink_ok stats_time_speed_connects
             curl_sample (Some "pfx-") (Some "host1") None (Some "inst") []
             (fun _ _ => Z.le_refl 0)).
  - exact (X7_success_is_decided_by_the_enabled_fields 64 VALUE_LIST_INIT_sample
             sstrncpy_common ssnprintf_common sink_ok stats_time_speed_connects
             curl_no_total_time (Some "pfx-") (Some "host1") None (Some "inst") []
             (fun _ _ => Z.le_refl 0)).
Defined.

Lemma X8_witness :
  curl_stats_dispatch_sample sink_ok (Some (stats_of ["total_time"]))
    (Some curl_sample) (Some "host1") None None None []
  = curl_stats_dispatch_sample sink_ok (Some (stats_of ["total_time"]))
      (Some curl_only_total_time) (Some "host1") None None None [].
Proof.
  apply (X8_disabled_fields_are_never_read 64 VALUE_LIST_INIT_sample
           sstrncpy_common ssnprintf_common sink_ok (stats_of ["total_time"])
           curl_sample None curl_only_total_time (Some "host1") None None []).
  intros spec [<-|[]]. reflexivity.
Defined.

Lemma X10_witness :
  exists evs,
    snd (curl_stats_dispatch_sample sink_ok (Some stats_time_speed_connects)
           (Some curl_sample) (Some "host1") None (Some "inst") (Some "pfx-") [])
    = ([] ++ evs)%list /\
    Forall (fun e => exists spec,
      In spec (enabled_specs stats_time_speed_connects) /\
      vl_type (fst e) = type spec /\
      (vl_type (fst e) = "bitrate" ->
       vl_values (fst e)
       = [double_times_8
            (snd (curl_easy_getinfo_double curl_sample (info spec)))]) /\
      (vl_type (fst e) = "duration" ->
       vl_values (fst e)
       = [snd (curl_easy_getinfo_double curl_sample (info spec))]) /\
      (vl_type (fst e) = "count" ->
       vl_values (fst e)
       = [double_of_long
            (snd (curl_easy_getinfo_long curl_sample (info spec)))])) evs.
Proof.
  apply (X10_the_type_tells_the_conversion 64 VALUE_LIST_INIT_sample
           sstrncpy_common ssnprintf_common sink_ok stats_time_speed_connects
           curl_sample (Some "pfx-") (Some "host1") None (Some "inst") []).
  - exact sstrncpy_common_fits.
  - lia.
Defined.

Lemma X12_witness :
  exists s,
    curl_stats_from_config IS_TRUE_common (Some config_all_false) = (Some s, []) /\
    enabled_specs s = [] /\
    curl_stats_dispatch_sample sink_ok (Some s) (Some curl_sample)
      (Some "host1") None None None [] = (0%Z, []) /\
    curl_stats_dispatch_sample sink_ok (Some s) None
      (Some "host1") None None None [] = ((-1)%Z, []).
Proof.
  apply (X12_a_block_that_enables_nothing IS_TRUE_common 64 VALUE_LIST_INIT_sample
           sstrncpy_common ssnprintf_common sink_ok config_all_false curl_sample
           (Some "host1") None None None []); reflexivity.
Defined.

Lemma X13_witness :
  exists s evs,
    curl_stats_from_config IS_TRUE_common (Some config_sample) = (Some s, []) /\
    curl_stats_dispatch_sample sink_ok (Some s) (Some curl_sample)
      (Some "host1") None (Some "inst") (Some "pfx-") []
    = (0%Z, ([] ++ evs)%list) /\
    map fst evs
    = map (fun spec =>
             sample (init_value_list_sample (Some "host1") None (Some "inst"))
               (sstrncpy_common (type spec) 64)
               (ssnprintf_common 64 "pfx-" (name spec))
               (converted_value curl_sample spec))
          (filter (some_value_true IS_TRUE_common (children config_sample))
             field_specs).
Proof.
  apply (X13_from_the_block_to_the_sink IS_TRUE_common 64 VALUE_LIST_INIT_sample
           sstrncpy_common ssnprintf_common sink_ok config_sample curl_sample
           (Some "host1") None (Some "inst") (Some "pfx-") []).
  - reflexivity.
  - intros l v. apply Z.le_refl.
  - intros spec _ _. unfold getinfo_code. destruct (dispatcher spec); reflexivity.
Defined.

Lemma X14_witness :
  double_times_8 double_huge = S754_infinity false /\
  double_times_8 double_one_point_five = S754_finite false 6755399441055744 (-49).
Proof.
  split.
  - apply (X14_times_8_overflows_from_exponent_969 false 9007199254740991 969
             eq_refl). reflexivity.
  - apply (X14_times_8_overflows_from_exponent_969 false 6755399441055744 (-52)
             eq_refl); [discriminate | reflexivity].
Defined.

Lemma X15_witness :
  valid_binary prec emax (double_times_8 double_one_point_five) = true /\
  match double_times_8 double_one_point_five with
  | S754_finite sx' _ _ | S754_infinity sx' => sx' = false
  | _ => False
  end.
Proof.
  exact (X15_times_8_keeps_doubles_well_formed double_one_point_five eq_refl).
Defined.

Lemma X16_witness :
  is_finite (double_of_long LONG_MAX) = true /\
  valid_binary prec emax (double_of_long LONG_MAX) = true /\
  exists z : Z,
    (SF2Q (double_of_long LONG_MAX) == inject_Z z)%Q /\
    (2 ^ 53 * Z.abs (z - LONG_MAX) <= Z.abs LONG_MAX)%Z.
Proof.
  apply (X16_long_to_double_is_finite_and_close LONG_MAX).
  split; discriminate.
Defined.
